(** * A book catalogue mirrored to JSON and CSV files

    Shallow embedding of [main3.py]: the [Book] record model and the
    [Library] collection store (add, remove, search, save, load, export,
    import) and the handlers of the [LibraryApp] window over the store,
    together with the parts of the Python runtime the store relies on:
    [str.lower], [in], [str.endswith], [str] and [int] on integers, the
    [json] encoder and decoder and the [csv] writer and reader in their
    default dialect (as in CPython 3.11).

    Modelling choices.
    - A Python [str] is a Rocq [string]: a sequence of code points
      U+0000..U+00FF.  A text file holds such a string; reading gives back
      exactly what was written.
    - A Python [int] is a [Z].
    - Python is dynamically typed: the fields of a [Book] hold whatever the
      decoder produced, so they are values of type [pyval].  The arguments
      of the methods ([title], [query], [filename], [format]) are strings,
      as their annotations and the callers have them.
    - A Python computation either returns, raises, or leaves the modelled
      fragment ([OutOfModel]: a floating point number, a code point above
      U+00FF, the [str] of a list or dict).  No [except] clause catches
      [OutOfModel], and no statement below says what happens then.
    - The file system is a finite map from paths to contents; every path
      can be written.  The interpreter's size limits (recursion depth,
      [csv.field_size_limit], the digit limit of [int]/[str] conversions)
      are left out.
    - [messagebox.showerror] appends to a log of dialogs.

    The file has two parts: the definitions (runtime, record model, store,
    then the vocabulary of the statements and of the proofs), and the
    properties. *)

From Stdlib Require Import ZArith String Ascii List Lia DecimalString DecimalZ DecimalPos.
From stdpp Require Import base gmap strings list.

Set Default Proof Using "Type".

(** ** Outcomes of a Python computation *)

Inductive exn : Type :=
| KeyError (key : string)
| TypeError
| ValueError
| AttributeError
| FileNotFoundError (path : string)
| JSONDecodeError
| CsvError
| Exception (message : string) (cause : exn).

Inductive outcome (A : Type) : Type :=
| Return (a : A)
| Raise (e : exn)
| OutOfModel.

Arguments Return {A} a.
Arguments Raise {A} e.
Arguments OutOfModel {A}.

Definition obind {A B} (x : outcome A) (f : A -> outcome B) : outcome B :=
  match x with
  | Return a => f a
  | Raise e => Raise e
  | OutOfModel => OutOfModel
  end.

Notation "'let*' x ':=' e 'in' k" := (obind e (fun x => k))
  (at level 10, x pattern, e at level 200, k at level 200).

(** [[f(x) for x in l]]: elements are evaluated left to right and the first
    exception aborts the comprehension. *)
Fixpoint comprehension {A B} (f : A -> outcome B) (l : list A) : outcome (list B) :=
  match l with
  | [] => Return []
  | x :: l' =>
      let* y := f x in
      let* ys := comprehension f l' in
      Return (y :: ys)
  end.

(** ** Characters and strings *)

(** The double quote, U+0022 *)
Abbreviation QUOTE := (Ascii false true false false false true false false).

Definition chr (n : N) : ascii := ascii_of_N n.
Definition ord (c : ascii) : N := N_of_ascii c.

Definition ascii_eqb (a b : ascii) : bool := Ascii.eqb a b.

Definition in_range (lo hi : N) (c : ascii) : bool :=
  (lo <=? ord c)%N && (ord c <=? hi)%N.

(** [str.lower] on U+0000..U+00FF: the ASCII capitals and the capitals
    U+00C0..U+00DE (the multiplication sign U+00D7 apart) move up by 32. *)
Definition lower_char (c : ascii) : ascii :=
  if in_range 65 90 c then chr (ord c + 32)
  else if in_range 192 222 c && negb (ord c =? 215)%N then chr (ord c + 32)
  else c.

Fixpoint lower (s : string) : string :=
  match s with
  | EmptyString => EmptyString
  | String c s' => String (lower_char c) (lower s')
  end.

(** [s.startswith(p)] *)
Fixpoint startswith (s p : string) : bool :=
  match p, s with
  | EmptyString, _ => true
  | String a p', String b s' => ascii_eqb a b && startswith s' p'
  | String _ _, EmptyString => false
  end.

(** [q in s]: [q] occurs in [s] as a contiguous substring. *)
Fixpoint contains (s q : string) : bool :=
  startswith s q ||
  match s with
  | EmptyString => false
  | String _ s' => contains s' q
  end.

(** [s.endswith(p)] *)
Definition endswith (s p : string) : bool :=
  let n := String.length s in
  let m := String.length p in
  (m <=? n)%nat && String.eqb (substring (n - m) m s) p.

(** ** [str(int)] and [int(str)] *)

Fixpoint uint_chars (d : Decimal.uint) : list ascii :=
  match d with
  | Decimal.Nil => []
  | Decimal.D0 d => "0"%char :: uint_chars d
  | Decimal.D1 d => "1"%char :: uint_chars d
  | Decimal.D2 d => "2"%char :: uint_chars d
  | Decimal.D3 d => "3"%char :: uint_chars d
  | Decimal.D4 d => "4"%char :: uint_chars d
  | Decimal.D5 d => "5"%char :: uint_chars d
  | Decimal.D6 d => "6"%char :: uint_chars d
  | Decimal.D7 d => "7"%char :: uint_chars d
  | Decimal.D8 d => "8"%char :: uint_chars d
  | Decimal.D9 d => "9"%char :: uint_chars d
  end.

(** The decimal text of an integer, as [int.__repr__] prints it. *)
Definition int_chars (z : Z) : list ascii :=
  match Z.to_int z with
  | Decimal.Pos d => uint_chars d
  | Decimal.Neg d => "-"%char :: uint_chars d
  end.

Definition str_of_int (z : Z) : string := string_of_list_ascii (int_chars z).

Definition is_digit (c : ascii) : bool := in_range 48 57 c.
Definition digit_value (c : ascii) : Z := Z.of_N (ord c) - 48.

(** The white space [int] strips: the ASCII white space of [Py_ISSPACE],
    and U+0085 and U+00A0, which are turned into spaces beforehand. *)
Definition is_int_space (c : ascii) : bool :=
  in_range 9 13 c || (ord c =? 32)%N || (ord c =? 133)%N || (ord c =? 160)%N.

Fixpoint skip_while (p : ascii -> bool) (l : list ascii) : list ascii :=
  match l with
  | c :: l' => if p c then skip_while p l' else l
  | [] => []
  end.

(** Digits, single underscores allowed between two digits.  [prev] tells
    whether the previous character was a digit.  Returns the value and the
    rest, or [None] where an underscore is misplaced. *)
Fixpoint int_digits (acc : Z) (prev : bool) (l : list ascii) : option (Z * list ascii) :=
  match l with
  | c :: l' =>
      if is_digit c then int_digits (10 * acc + digit_value c) true l'
      else if ascii_eqb c "_" then
        if prev then
          match l' with
          | d :: _ => if is_digit d then int_digits acc false l' else None
          | [] => None
          end
        else None
      else Some (acc, l)
  | [] => Some (acc, [])
  end.

(** [int(s)] for a [str] argument, base ten. *)
Definition int_of_chars (l : list ascii) : outcome Z :=
  let l1 := skip_while is_int_space l in
  let '(sign, l2) :=
    match l1 with
    | c :: l' =>
        if ascii_eqb c "+" then (1, l')
        else if ascii_eqb c "-" then (-1, l')
        else (1, l1)
    | [] => (1, l1)
    end%Z in
  match l2 with
  | c :: _ =>
      if is_digit c then
        match int_digits 0 false l2 with
        | Some (n, rest) =>
            match skip_while is_int_space rest with
            | [] => Return (sign * n)%Z
            | _ :: _ => Raise ValueError
            end
        | None => Raise ValueError
        end
      else Raise ValueError
  | [] => Raise ValueError
  end.

Definition int_of_str (s : string) : outcome Z :=
  int_of_chars (list_ascii_of_string s).

(** ** Python values

    What [json.load] can return, floating point numbers apart.  A [dict]
    is kept as the list of its items in insertion order; its keys are
    strings and pairwise distinct. *)

#[warnings="-register-all"]
Inductive pyval : Type :=
| PNone
| PBool (b : bool)
| PInt (z : Z)
| PStr (s : string)
| PList (l : list pyval)
| PDict (d : list (string * pyval)).

(** [d[k]] for a dict [d] *)
Fixpoint dict_get {V} (d : list (string * V)) (k : string) : option V :=
  match d with
  | [] => None
  | (k', v) :: d' => if String.eqb k' k then Some v else dict_get d' k
  end.

(** [d[k] = v]: an existing key keeps its place and takes the new value, a
    new key goes last. *)
Fixpoint dict_set {V} (d : list (string * V)) (k : string) (v : V) : list (string * V) :=
  match d with
  | [] => [(k, v)]
  | (k', v') :: d' =>
      if String.eqb k' k then (k', v) :: d' else (k', v') :: dict_set d' k v
  end.

(** [dict(pairs)] *)
Definition dict_of_pairs {V} (pairs : list (string * V)) : list (string * V) :=
  fold_left (fun d kv => dict_set d (fst kv) (snd kv)) pairs [].

(** [data[key]] for a string [key]: only a dict can be indexed by a string. *)
Definition getitem (data : pyval) (key : string) : outcome pyval :=
  match data with
  | PDict d =>
      match dict_get d key with
      | Some v => Return v
      | None => Raise (KeyError key)
      end
  | _ => Raise TypeError
  end.

Fixpoint chars_of (s : string) : list pyval :=
  match s with
  | EmptyString => []
  | String c s' => PStr (String c EmptyString) :: chars_of s'
  end.

(** [for x in data]: a list gives its elements, a dict its keys, a string
    its characters; nothing else is iterable. *)
Definition iterate (data : pyval) : outcome (list pyval) :=
  match data with
  | PList l => Return l
  | PDict d => Return (map (fun kv => PStr (fst kv)) d)
  | PStr s => Return (chars_of s)
  | _ => Raise TypeError
  end.

(** [v.lower()]: only [str] has the method. *)
Definition lower_of (v : pyval) : outcome string :=
  match v with
  | PStr s => Return (lower s)
  | _ => Raise AttributeError
  end.

(** ** [json.dump(obj, f, indent=2)] *)

Definition hex_digit (n : N) : ascii :=
  if (n <? 10)%N then chr (48 + n) else chr (87 + n).

(** [encode_basestring_ascii] on one character: the short escapes, then
    [\u00xx] for everything outside U+0020..U+007E. *)
Definition escape_char (c : ascii) : list ascii :=
  if ascii_eqb c QUOTE then ["\"; QUOTE]%char
  else if ascii_eqb c "\" then ["\"; "\"]%char
  else if (ord c =? 10)%N then ["\"; "n"]%char
  else if (ord c =? 13)%N then ["\"; "r"]%char
  else if (ord c =? 9)%N then ["\"; "t"]%char
  else if (ord c =? 8)%N then ["\"; "b"]%char
  else if (ord c =? 12)%N then ["\"; "f"]%char
  else if in_range 32 126 c then [c]
  else ["\"; "u"; "0"; "0"; hex_digit (ord c / 16); hex_digit (ord c mod 16)]%char.

Fixpoint escape_chars (s : string) : list ascii :=
  match s with
  | EmptyString => []
  | String c s' => escape_char c ++ escape_chars s'
  end.

Definition encode_str (s : string) : list ascii :=
  QUOTE :: escape_chars s ++ [QUOTE].

Definition LF : ascii := chr 10.
Definition CR : ascii := chr 13.

(** ['\n' + indent * level], with an indent of two spaces *)
Definition newline_indent (level : nat) : list ascii :=
  LF :: repeat " "%char (2 * level).

(** The text of [obj] at nesting [level]: what [_iterencode] yields, put
    together. *)
Fixpoint encode (level : nat) (v : pyval) : list ascii :=
  match v with
  | PNone => list_ascii_of_string "null"
  | PBool true => list_ascii_of_string "true"
  | PBool false => list_ascii_of_string "false"
  | PInt z => int_chars z
  | PStr s => encode_str s
  | PList [] => list_ascii_of_string "[]"
  | PList (x :: xs) =>
      "["%char :: newline_indent (S level) ++ encode (S level) x
      ++ (fix rest (l : list pyval) : list ascii :=
            match l with
            | [] => []
            | y :: l' =>
                ","%char :: newline_indent (S level) ++ encode (S level) y ++ rest l'
            end) xs
      ++ newline_indent level ++ ["]"%char]
  | PDict [] => list_ascii_of_string "{}"
  | PDict ((k, x) :: kxs) =>
      "{"%char :: newline_indent (S level) ++ encode_str k
      ++ ":"%char :: " "%char :: encode (S level) x
      ++ (fix rest (l : list (string * pyval)) : list ascii :=
            match l with
            | [] => []
            | (k', y) :: l' =>
                ","%char :: newline_indent (S level) ++ encode_str k'
                ++ ":"%char :: " "%char :: encode (S level) y ++ rest l'
            end) kxs
      ++ newline_indent level ++ ["}"%char]
  end.

Definition json_dumps (obj : pyval) : string :=
  string_of_list_ascii (encode 0 obj).

(** ** [json.load]

    The decoder follows the scanner of the [json] module on the rest of the
    input.  Messages and positions of a [JSONDecodeError] are not kept. *)

Definition is_json_ws (c : ascii) : bool :=
  ascii_eqb c " " || (ord c =? 9)%N || (ord c =? 10)%N || (ord c =? 13)%N.

Definition hex_value (c : ascii) : option N :=
  if in_range 48 57 c then Some (ord c - 48)%N
  else if in_range 97 102 c then Some (ord c - 87)%N
  else if in_range 65 70 c then Some (ord c - 55)%N
  else None.

(** The four hexadecimal digits after [\u] *)
Definition decode_uXXXX (a b c d : ascii) : option N :=
  match hex_value a, hex_value b, hex_value c, hex_value d with
  | Some x, Some y, Some z, Some w => Some (((x * 16 + y) * 16 + z) * 16 + w)%N
  | _, _, _, _ => None
  end.

(** [scanstring], strict: the text after an opening quote up to the closing
    one.  A raw control character, an unknown escape or a missing closing
    quote is an error. *)
Fixpoint scanstring (l : list ascii) : outcome (string * list ascii) :=
  match l with
  | [] => Raise JSONDecodeError
  | c :: l' =>
      if ascii_eqb c QUOTE then Return (EmptyString, l')
      else if ascii_eqb c "\" then
        match l' with
        | [] => Raise JSONDecodeError
        | e :: l'' =>
            let simple (x : ascii) :=
              let* (s, r) := scanstring l'' in Return (String x s, r) in
            if ascii_eqb e QUOTE then simple QUOTE
            else if ascii_eqb e "\" then simple "\"%char
            else if ascii_eqb e "/" then simple "/"%char
            else if ascii_eqb e "b" then simple (chr 8)
            else if ascii_eqb e "f" then simple (chr 12)
            else if ascii_eqb e "n" then simple (chr 10)
            else if ascii_eqb e "r" then simple (chr 13)
            else if ascii_eqb e "t" then simple (chr 9)
            else if ascii_eqb e "u" then
              match l'' with
              | h1 :: h2 :: h3 :: h4 :: l3 =>
                  match decode_uXXXX h1 h2 h3 h4 with
                  | Some n =>
                      if (n <? 256)%N then
                        let* (s, r) := scanstring l3 in Return (String (chr n) s, r)
                      else OutOfModel
                  | None => Raise JSONDecodeError
                  end
              | _ => Raise JSONDecodeError
              end
            else Raise JSONDecodeError
        end
      else if (ord c <? 32)%N then Raise JSONDecodeError
      else let* (s, r) := scanstring l' in Return (String c s, r)
  end.

Fixpoint digits_value (acc : Z) (l : list ascii) : Z * list ascii :=
  match l with
  | c :: l' => if is_digit c then digits_value (10 * acc + digit_value c) l' else (acc, l)
  | [] => (acc, [])
  end.

(** Does a fraction ([.] and a digit) or an exponent ([e] or [E], an
    optional sign, a digit) follow?  Then the number is a float. *)
Definition float_follows (l : list ascii) : bool :=
  match l with
  | c :: d :: l' =>
      if ascii_eqb c "." then is_digit d
      else if ascii_eqb c "e" || ascii_eqb c "E" then
        if ascii_eqb d "+" || ascii_eqb d "-" then
          match l' with
          | x :: _ => is_digit x
          | [] => false
          end
        else is_digit d
      else false
  | _ => false
  end.

(** [_match_number]: an optional minus sign, then [0] or a digit from 1 to
    9 followed by digits. *)
Definition match_number (l : list ascii) : outcome (pyval * list ascii) :=
  let '(sign, l1) :=
    match l with
    | c :: l' => if ascii_eqb c "-" then (-1, l') else (1, l)
    | [] => (1, l)
    end%Z in
  match l1 with
  | c :: l2 =>
      if ascii_eqb c "0" then
        if float_follows l2 then OutOfModel else Return (PInt 0, l2)
      else if is_digit c then
        let '(n, r) := digits_value 0 l1 in
        if float_follows r then OutOfModel else Return (PInt (sign * n), r)
      else Raise JSONDecodeError
  | [] => Raise JSONDecodeError
  end.

Definition starts (l : list ascii) (p : string) : option (list ascii) :=
  let lp := list_ascii_of_string p in
  if bool_decide (take (length lp) l = lp) then Some (drop (length lp) l) else None.

(** The items of an array after the first white space: values separated by
    commas, up to the closing bracket.  [n] bounds the number of items. *)
Fixpoint parse_array_items (scan : list ascii -> outcome (pyval * list ascii))
    (n : nat) (l : list ascii) : outcome (list pyval * list ascii) :=
  match n with
  | O => OutOfModel
  | S n' =>
      let* (v, r) := scan l in
      match skip_while is_json_ws r with
      | c :: r' =>
          if ascii_eqb c "]" then Return ([v], r')
          else if ascii_eqb c "," then
            let* (vs, r'') := parse_array_items scan n' (skip_while is_json_ws r') in
            Return (v :: vs, r'')
          else Raise JSONDecodeError
      | [] => Raise JSONDecodeError
      end
  end.

(** The pairs of an object from the opening quote of a key on. *)
Fixpoint parse_object_pairs (scan : list ascii -> outcome (pyval * list ascii))
    (n : nat) (l : list ascii) : outcome (list (string * pyval) * list ascii) :=
  match n with
  | O => OutOfModel
  | S n' =>
      match l with
      | q :: l1 =>
          if ascii_eqb q QUOTE then
            let* (key, r) := scanstring l1 in
            match skip_while is_json_ws r with
            | c :: r1 =>
                if ascii_eqb c ":" then
                  let* (v, r2) := scan (skip_while is_json_ws r1) in
                  match skip_while is_json_ws r2 with
                  | d :: r3 =>
                      if ascii_eqb d "}" then Return ([(key, v)], r3)
                      else if ascii_eqb d "," then
                        let* (kvs, r4) :=
                          parse_object_pairs scan n' (skip_while is_json_ws r3) in
                        Return ((key, v) :: kvs, r4)
                      else Raise JSONDecodeError
                  | [] => Raise JSONDecodeError
                  end
                else Raise JSONDecodeError
            | [] => Raise JSONDecodeError
            end
          else Raise JSONDecodeError
      | [] => Raise JSONDecodeError
      end
  end.

(** [scan_once]: one JSON value at the head of [l].  [depth] bounds the
    nesting of arrays and objects. *)
Fixpoint scan_once (depth : nat) (l : list ascii) : outcome (pyval * list ascii) :=
  match l with
  | [] => Raise JSONDecodeError
  | c :: l' =>
      if ascii_eqb c QUOTE then
        let* (s, r) := scanstring l' in Return (PStr s, r)
      else if ascii_eqb c "{" then
        match depth with
        | O => OutOfModel
        | S depth' =>
            match skip_while is_json_ws l' with
            | d :: r =>
                if ascii_eqb d "}" then Return (PDict [], r)
                else
                  let* (pairs, r') :=
                    parse_object_pairs (scan_once depth') (length l') (d :: r) in
                  Return (PDict (dict_of_pairs pairs), r')
            | [] => Raise JSONDecodeError
            end
        end
      else if ascii_eqb c "[" then
        match depth with
        | O => OutOfModel
        | S depth' =>
            match skip_while is_json_ws l' with
            | d :: r =>
                if ascii_eqb d "]" then Return (PList [], r)
                else
                  let* (items, r') :=
                    parse_array_items (scan_once depth') (length l') (d :: r) in
                  Return (PList items, r')
            | [] => Raise JSONDecodeError
            end
        end
      else
        match starts l "null", starts l "true", starts l "false" with
        | Some r, _, _ => Return (PNone, r)
        | _, Some r, _ => Return (PBool true, r)
        | _, _, Some r => Return (PBool false, r)
        | None, None, None =>
            match starts l "NaN", starts l "Infinity", starts l "-Infinity" with
            | None, None, None => match_number l
            | _, _, _ => OutOfModel
            end
        end
  end.

(** [json.loads]: white space, one value, white space, end of input. *)
Definition json_loads (s : string) : outcome pyval :=
  let l := list_ascii_of_string s in
  let* (obj, r) := scan_once (length l) (skip_while is_json_ws l) in
  match skip_while is_json_ws r with
  | [] => Return obj
  | _ :: _ => Raise JSONDecodeError
  end.

(** ** [csv.writer] and [csv.DictWriter], dialect [excel]

    The delimiter is the comma, the quote character the double quote
    (doubled inside a quoted field), the line terminator [\r\n]; quoting
    is minimal and there is no escape character. *)

(** The text a field is written from: [None] is the empty string, a string
    is itself, anything else goes through [str]. *)
Definition field_text (v : pyval) : outcome string :=
  match v with
  | PNone => Return EmptyString
  | PStr s => Return s
  | PInt z => Return (str_of_int z)
  | PBool true => Return "True"%string
  | PBool false => Return "False"%string
  | PList _ | PDict _ => OutOfModel
  end.

(** A character that forces the quoting of its field *)
Definition special (c : ascii) : bool :=
  ascii_eqb c "," || ascii_eqb c QUOTE || ascii_eqb c CR || ascii_eqb c LF.

Definition quoted (field : list ascii) : bool := existsb special field.

Fixpoint double_quotes (field : list ascii) : list ascii :=
  match field with
  | [] => []
  | c :: l => if ascii_eqb c QUOTE then QUOTE :: QUOTE :: double_quotes l
              else c :: double_quotes l
  end.

(** [join_append]: one field of a record *)
Definition join_field (field : list ascii) : list ascii :=
  if quoted field then QUOTE :: double_quotes field ++ [QUOTE]
  else field.

Fixpoint join_fields (fields : list (list ascii)) : list ascii :=
  match fields with
  | [] => []
  | [f] => join_field f
  | f :: fs => join_field f ++ ","%char :: join_fields fs
  end.

(** [writer.writerow]: the fields joined by commas, then the line
    terminator.  A record made of one empty field is written as two
    quotes. *)
Definition csv_writerow (fields : list string) : list ascii :=
  match fields with
  | [EmptyString] => [QUOTE; QUOTE; CR; LF]%char
  | _ => join_fields (map list_ascii_of_string fields) ++ [CR; LF]
  end.

(** [DictWriter._dict_to_list]: a key outside [fieldnames] is refused, a
    missing one is written as the empty string. *)
Definition dict_to_list (fieldnames : list string) (rowdict : list (string * pyval))
  : outcome (list pyval) :=
  if forallb (fun kv => bool_decide (fst kv ∈ fieldnames)) rowdict then
    Return (map (fun k => default (PStr EmptyString) (dict_get rowdict k)) fieldnames)
  else Raise ValueError.

(** [DictWriter.writerow] *)
Definition DictWriter_writerow (fieldnames : list string) (rowdict : list (string * pyval))
  : outcome (list ascii) :=
  let* values := dict_to_list fieldnames rowdict in
  let* texts := comprehension field_text values in
  Return (csv_writerow texts).

(** [DictWriter.writeheader] *)
Definition DictWriter_writeheader (fieldnames : list string) : outcome (list ascii) :=
  DictWriter_writerow fieldnames
    (dict_of_pairs (map (fun k => (k, PStr k)) fieldnames)).

(** ** [csv.reader] and [csv.DictReader], dialect [excel] *)

(** Iterating over a text file opened with [newline='']: lines end after
    [\n], [\r\n] or a lone [\r], and keep their ending. *)
Definition line_ends (c : ascii) (next : list ascii) : bool :=
  ascii_eqb c LF
  || ascii_eqb c CR && match next with
                       | d :: _ => negb (ascii_eqb d LF)
                       | [] => true
                       end.

(** [cur] is the part of the current line already passed. *)
Fixpoint file_lines_from (cur : list ascii) (text : list ascii) : list (list ascii) :=
  match text with
  | [] => match cur with [] => [] | _ :: _ => [cur] end
  | c :: t =>
      if line_ends c t then (cur ++ [c]) :: file_lines_from [] t
      else file_lines_from (cur ++ [c]) t
  end.

Definition file_lines (text : list ascii) : list (list ascii) :=
  file_lines_from [] text.

(** The states of the parser the dialect can reach (without an escape
    character the escape states cannot be entered). *)
Inductive ParserState : Type :=
| START_RECORD | START_FIELD | IN_FIELD
| IN_QUOTED_FIELD | QUOTE_IN_QUOTED_FIELD | EAT_CRNL.

Global Instance ParserState_eq_dec : EqDecision ParserState.
Proof. solve_decision. Defined.

Record Reader : Type := mkReader {
  state : ParserState;
  field : list ascii;      (* the field being read *)
  fields : list string     (* the fields of the record read so far *)
}.

Definition parse_reset : Reader :=
  {| state := START_RECORD; field := []; fields := [] |}.

Definition parse_save_field (r : Reader) : Reader :=
  {| state := state r; field := [];
     fields := fields r ++ [string_of_list_ascii (field r)] |}.

Definition parse_add_char (r : Reader) (c : ascii) : Reader :=
  {| state := state r; field := field r ++ [c]; fields := fields r |}.

Definition set_state (r : Reader) (st : ParserState) : Reader :=
  {| state := st; field := field r; fields := fields r |}.

Definition is_newline (c : ascii) : bool := ascii_eqb c LF || ascii_eqb c CR.

(** [parse_process_char]; [None] is the end of a line. *)
Definition parse_process_char (r : Reader) (c : option ascii) : outcome Reader :=
  let start_field (r : Reader) :=
    match c with
    | None => Return (set_state (parse_save_field r) START_RECORD)
    | Some x =>
        if is_newline x then Return (set_state (parse_save_field r) EAT_CRNL)
        else if ascii_eqb x QUOTE then Return (set_state r IN_QUOTED_FIELD)
        else if ascii_eqb x "," then Return (parse_save_field r)
        else Return (set_state (parse_add_char r x) IN_FIELD)
    end in
  match state r with
  | START_RECORD =>
      match c with
      | None => Return r
      | Some x =>
          if is_newline x then Return (set_state r EAT_CRNL)
          else start_field (set_state r START_FIELD)
      end
  | START_FIELD => start_field r
  | IN_FIELD =>
      match c with
      | None => Return (set_state (parse_save_field r) START_RECORD)
      | Some x =>
          if is_newline x then Return (set_state (parse_save_field r) EAT_CRNL)
          else if ascii_eqb x "," then Return (set_state (parse_save_field r) START_FIELD)
          else Return (parse_add_char r x)
      end
  | IN_QUOTED_FIELD =>
      match c with
      | None => Return r
      | Some x =>
          if ascii_eqb x QUOTE then Return (set_state r QUOTE_IN_QUOTED_FIELD)
          else Return (parse_add_char r x)
      end
  | QUOTE_IN_QUOTED_FIELD =>
      match c with
      | None => Return (set_state (parse_save_field r) START_RECORD)
      | Some x =>
          if ascii_eqb x QUOTE then Return (set_state (parse_add_char r x) IN_QUOTED_FIELD)
          else if ascii_eqb x "," then Return (set_state (parse_save_field r) START_FIELD)
          else if is_newline x then Return (set_state (parse_save_field r) EAT_CRNL)
          else Return (set_state (parse_add_char r x) IN_FIELD)
      end
  | EAT_CRNL =>
      match c with
      | None => Return (set_state r START_RECORD)
      | Some x => if is_newline x then Return r else Raise CsvError
      end
  end.

Fixpoint feed (r : Reader) (line : list ascii) : outcome Reader :=
  match line with
  | [] => Return r
  | c :: l => let* r' := parse_process_char r (Some c) in feed r' l
  end.

(** The records of the remaining [lines], [r] being the parser in the
    middle of a record ([Reader_iternext], called until the input is
    exhausted).  At the end of the input an unfinished field closes the
    record. *)
Fixpoint read_records (r : Reader) (lines : list (list ascii)) : outcome (list (list string)) :=
  match lines with
  | [] =>
      if bool_decide (field r ≠ []) || bool_decide (state r = IN_QUOTED_FIELD)
      then Return [fields (parse_save_field r)]
      else Return []
  | line :: rest =>
      let* r1 := feed r line in
      let* r2 := parse_process_char r1 None in
      if bool_decide (state r2 = START_RECORD) then
        let* records := read_records parse_reset rest in
        Return (fields r2 :: records)
      else read_records r2 rest
  end.

Definition csv_reader (text : string) : outcome (list (list string)) :=
  read_records parse_reset (file_lines (list_ascii_of_string text)).

(** The dict [DictReader] makes of a record: the field names zipped with
    the fields, [None] for the names a short record leaves out.  (The
    surplus fields of a long record go under the key [None], which no
    string key reaches.) *)
Definition row_dict (fieldnames : list string) (row : list string)
  : list (string * option string) :=
  fold_left (fun d k => dict_set d k None)
    (drop (length row) fieldnames)
    (dict_of_pairs (zip fieldnames (map Some row))).

(** [csv.DictReader(f)], iterated to the end: the first record gives the
    field names, empty records after it are skipped.  The records are read
    ahead of their use; on the lines of a file the reader raises nothing
    ([csv_reader_total]), so reading them one at a time gives the same. *)
Definition DictReader (text : string) : outcome (list (list (string * option string))) :=
  let* records := csv_reader text in
  match records with
  | [] => Return []
  | fieldnames :: rows =>
      Return (map (row_dict fieldnames) (filter (fun row => row ≠ []) rows))
  end.

(** ** The record model: [class Book] *)

Record Book : Type := mkBook {
  title : pyval;
  author : pyval;
  genre : pyval;
  year : pyval
}.

(** [Book.to_dict] *)
Definition to_dict (b : Book) : list (string * pyval) :=
  [("title", title b); ("author", author b); ("genre", genre b); ("year", year b)]%string.

(** [Book.from_dict]: the four lookups, left to right; the values are
    stored as they come. *)
Definition from_dict (data : pyval) : outcome Book :=
  let* t := getitem data "title" in
  let* a := getitem data "author" in
  let* g := getitem data "genre" in
  let* y := getitem data "year" in
  Return (mkBook t a g y).

(** ** The store and its world *)

Record Library : Type := mkLibrary {
  books : list Book;
  json_filename : string;
  csv_filename : string
}.

(** [messagebox.showerror(caption, message)]; where the message ends with
    the text of an exception, that exception is [cause]. *)
Inductive Dialog : Type :=
| showerror (caption : string) (message : string) (cause : option exn).

Record State : Type := mkState {
  self : Library;
  files : gmap string string;
  dialogs : list Dialog
}.

(** A method of the store: it may change the state, and returns, raises or
    leaves the model. *)
Definition M (A : Type) : Type := State -> outcome A * State.

Global Instance M_ret : MRet M := fun A a st => (Return a, st).

Global Instance M_bind : MBind M := fun A B f m st =>
  match m st with
  | (Return a, st') => f a st'
  | (Raise e, st') => (Raise e, st')
  | (OutOfModel, st') => (OutOfModel, st')
  end.

Definition raise {A} (e : exn) : M A := fun st => (Raise e, st).

(** The outcome of a computation that touches no state *)
Definition lift {A} (x : outcome A) : M A := fun st => (x, st).

(** [try: body except Exception as e: handler(e)] *)
Definition try_except {A} (body : M A) (handler : exn -> M A) : M A := fun st =>
  match body st with
  | (Raise e, st') => handler e st'
  | r => r
  end.

Definition get_self : M Library := fun st => (Return (self st), st).

(** [self.books = bs] *)
Definition set_books (bs : list Book) : M unit := fun st =>
  (Return tt,
   {| self := {| books := bs;
                 json_filename := json_filename (self st);
                 csv_filename := csv_filename (self st) |};
      files := files st; dialogs := dialogs st |}).

Definition show (d : Dialog) : M unit := fun st =>
  (Return tt, {| self := self st; files := files st; dialogs := dialogs st ++ [d] |}).

(** [os.path.exists(path)] *)
Definition path_exists (path : string) : M bool := fun st =>
  (Return (bool_decide (is_Some (files st !! path))), st).

(** [open(path, 'r')] followed by reading the whole file *)
Definition read_file (path : string) : M string := fun st =>
  match files st !! path with
  | Some text => (Return text, st)
  | None => (Raise (FileNotFoundError path), st)
  end.

(** [open(path, 'w')]: the file is created, or emptied *)
Definition open_w (path : string) : M unit := fun st =>
  (Return tt,
   {| self := self st; files := <[path := EmptyString]> (files st); dialogs := dialogs st |}).

(** [f.write(text)] on a file opened for writing *)
Definition write (path : string) (text : string) : M unit := fun st =>
  (Return tt,
   {| self := self st;
      files := <[path := (default EmptyString (files st !! path) +:+ text)%string]> (files st);
      dialogs := dialogs st |}).

(** ** [class Library] *)

(** [json.dump([book.to_dict() for book in self.books], f, indent=2)] *)
Definition dump_books (path : string) : M unit :=
  lib ← get_self;
  write path (json_dumps (PList (map (fun b => PDict (to_dict b)) (books lib)))).

Definition fieldnames : list string := ["title"; "author"; "genre"; "year"]%string.

(** [for book in bs: writer.writerow(book.to_dict())] *)
Fixpoint write_rows (path : string) (bs : list Book) : M unit :=
  match bs with
  | [] => mret tt
  | b :: bs' =>
      line ← lift (DictWriter_writerow fieldnames (to_dict b));
      write path (string_of_list_ascii line);;
      write_rows path bs'
  end.

(** The body of [with open(path, 'w', newline='') as f] in the CSV case *)
Definition write_csv (path : string) : M unit :=
  header ← lift (DictWriter_writeheader fieldnames);
  write path (string_of_list_ascii header);;
  lib ← get_self;
  write_rows path (books lib).

Definition _save_to_json : M bool :=
  try_except
    (lib ← get_self;
     open_w (json_filename lib);;
     dump_books (json_filename lib);;
     mret true)
    (fun e => raise (Exception "JSON save error: " e)).

Definition _save_to_csv : M bool :=
  try_except
    (lib ← get_self;
     open_w (csv_filename lib);;
     write_csv (csv_filename lib);;
     mret true)
    (fun e => raise (Exception "CSV save error: " e)).

Definition save_library (format : string) : M bool :=
  try_except
    (if String.eqb format "json" then _save_to_json
     else if String.eqb format "csv" then _save_to_csv
     else mret false)
    (fun e => show (showerror "Error" "Failed to save library: " (Some e));; mret false).

(** [[Book.from_dict(book_data) for book_data in data]] *)
Definition books_of_json (text : string) : outcome (list Book) :=
  let* data := json_loads text in
  let* items := iterate data in
  comprehension from_dict items.

(** [row[key]] on a row of [DictReader] *)
Definition row_get (row : list (string * option string)) (key : string) : outcome (option string) :=
  match dict_get row key with
  | Some v => Return v
  | None => Raise (KeyError key)
  end.

Definition pyval_of_cell (v : option string) : pyval :=
  match v with
  | Some s => PStr s
  | None => PNone
  end.

(** [int(x)] where [x] is a cell of a row *)
Definition int_of_cell (v : option string) : outcome Z :=
  match v with
  | Some s => int_of_str s
  | None => Raise TypeError
  end.

(** [Book(row['title'], row['author'], row['genre'], int(row['year']))] *)
Definition book_of_row (row : list (string * option string)) : outcome Book :=
  let* t := row_get row "title" in
  let* a := row_get row "author" in
  let* g := row_get row "genre" in
  let* y := row_get row "year" in
  let* n := int_of_cell y in
  Return (mkBook (pyval_of_cell t) (pyval_of_cell a) (pyval_of_cell g) (PInt n)).

Definition books_of_csv (text : string) : outcome (list Book) :=
  let* rows := DictReader text in
  comprehension book_of_row rows.

Definition _load_from_json : M bool :=
  try_except
    (lib ← get_self;
     text ← read_file (json_filename lib);
     bs ← lift (books_of_json text);
     set_books bs;;
     mret true)
    (fun e => raise (Exception "JSON load error: " e)).

Definition _load_from_csv : M bool :=
  try_except
    (lib ← get_self;
     text ← read_file (csv_filename lib);
     bs ← lift (books_of_csv text);
     set_books bs;;
     mret true)
    (fun e => raise (Exception "CSV load error: " e)).

Definition load_library : M bool :=
  try_except
    (lib ← get_self;
     has_json ← path_exists (json_filename lib);
     if (has_json : bool) then _load_from_json
     else
       has_csv ← path_exists (csv_filename lib);
       if (has_csv : bool) then _load_from_csv else mret false)
    (fun e => show (showerror "Error" "Failed to load library: " (Some e));; mret false).

(** [Library()]: a new store in the world [(fs, ds)] *)
Definition Library_init (fs : gmap string string) (ds : list Dialog) : outcome unit * State :=
  (load_library;; mret tt)
    {| self := {| books := [];
                  json_filename := "library_data.json";
                  csv_filename := "library_data.csv" |};
       files := fs; dialogs := ds |}.

Definition add_book (book : Book) : M unit :=
  lib ← get_self;
  set_books (books lib ++ [book]);;
  save_library "json";;
  mret tt.

(** The index of the first book whose lowered title equals the lowered
    [name], counting from [i]. *)
Fixpoint find_title (name : string) (i : nat) (bs : list Book) : outcome (option nat) :=
  match bs with
  | [] => Return None
  | b :: bs' =>
      let* t := lower_of (title b) in
      if String.eqb t (lower name) then Return (Some i)
      else find_title name (S i) bs'
  end.

Definition remove_book (name : string) : M bool :=
  lib ← get_self;
  found ← lift (find_title name 0 (books lib));
  match (found : option nat) with
  | Some i =>
      set_books (delete i (books lib));;
      save_library "json";;
      mret true
  | None => mret false
  end.

(** The condition of the loop of [search_books]; [or] stops at the first
    field that contains the query. *)
Definition book_matches (query : string) (b : Book) : outcome bool :=
  let* t := lower_of (title b) in
  if contains t query then Return true
  else
    let* a := lower_of (author b) in
    if contains a query then Return true
    else
      let* g := lower_of (genre b) in
      Return (contains g query).

Fixpoint search_loop (query : string) (bs : list Book) : outcome (list Book) :=
  match bs with
  | [] => Return []
  | b :: bs' =>
      let* hit := book_matches query b in
      let* results := search_loop query bs' in
      Return (if hit then b :: results else results)
  end.

Definition search_books (query : string) : M (list Book) :=
  lib ← get_self;
  lift (search_loop (lower query) (books lib)).

Definition get_all_books : M (list Book) :=
  lib ← get_self;
  mret (books lib).

Definition export_library (filename format : string) : M bool :=
  try_except
    (if String.eqb format "json" then
       open_w filename;; dump_books filename;; mret true
     else if String.eqb format "csv" then
       open_w filename;; write_csv filename;; mret true
     else mret false)
    (fun e => show (showerror "Error" "Failed to export library: " (Some e));; mret false).

Definition import_library (filename : string) : M bool :=
  try_except
    (if endswith filename ".json" then
       text ← read_file filename;
       temp_books ← lift (books_of_json text);
       lib ← get_self;
       set_books (books lib ++ temp_books);;
       save_library "json";;
       mret true
     else if endswith filename ".csv" then
       text ← read_file filename;
       temp_books ← lift (books_of_csv text);
       lib ← get_self;
       set_books (books lib ++ temp_books);;
       save_library "json";;
       mret true
     else
       show (showerror "Error" "Unsupported file format" None);;
       mret false)
    (fun e => show (showerror "Error" "Failed to import library: " (Some e));; mret false).

(** ** Vocabulary of the statements *)

(** The text [_save_to_json] and [export_library] write for a collection *)
Definition books_json (bs : list Book) : string :=
  json_dumps (PList (map (fun b => PDict (to_dict b)) bs)).

(** A record in the sense of the data model: three strings and an
    integer. *)
Definition is_record (b : Book) : bool :=
  match title b, author b, genre b, year b with
  | PStr _, PStr _, PStr _, PInt _ => true
  | _, _, _, _ => false
  end.

(** The title is a string equal to [name] up to case. *)
Definition title_is (name : string) (b : Book) : bool :=
  match title b with
  | PStr s => String.eqb (lower s) (lower name)
  | _ => false
  end.

Definition has_str_title (b : Book) : bool :=
  match title b with
  | PStr _ => true
  | _ => false
  end.

Definition has_str_fields (b : Book) : bool :=
  match title b, author b, genre b with
  | PStr _, PStr _, PStr _ => true
  | _, _, _ => false
  end.

(** Title, author or genre contains [query] up to case. *)
Definition matches_query (query : string) (b : Book) : bool :=
  match title b, author b, genre b with
  | PStr t, PStr a, PStr g =>
      contains (lower t) (lower query) || contains (lower a) (lower query)
      || contains (lower g) (lower query)
  | _, _, _ => false
  end.

Definition with_books (st : State) (bs : list Book) : State :=
  {| self := {| books := bs;
                json_filename := json_filename (self st);
                csv_filename := csv_filename (self st) |};
     files := files st; dialogs := dialogs st |}.

(** The state after the collection became [bs] and was saved to the
    canonical JSON file. *)
Definition saved (st : State) (bs : list Book) : State :=
  {| self := {| books := bs;
                json_filename := json_filename (self st);
                csv_filename := csv_filename (self st) |};
     files := <[json_filename (self st) := books_json bs]> (files st);
     dialogs := dialogs st |}.

(** The state after a dialog was shown *)
Definition notified (st : State) (d : Dialog) : State :=
  {| self := self st; files := files st; dialogs := dialogs st ++ [d] |}.

(** What [import_library] does with a file of a supported format, [parse]
    being the reader of that format. *)
Definition import_with (parse : string -> outcome (list Book)) (filename : string)
    (st : State) : outcome bool * State :=
  match files st !! filename with
  | None =>
      (Return false,
       notified st (showerror "Error" "Failed to import library: "
                      (Some (FileNotFoundError filename))))
  | Some text =>
      match parse text with
      | Return temp_books => (Return true, saved st (books (self st) ++ temp_books))
      | Raise e =>
          (Return false,
           notified st (showerror "Error" "Failed to import library: " (Some e)))
      | OutOfModel => (OutOfModel, st)
      end
  end.

(** What the constructor leaves when it loads from a file with the text
    [parsed] stands for. *)
Definition loaded (wrap : string) (parsed : outcome (list Book))
    (fs : gmap string string) (ds : list Dialog) : outcome unit * State :=
  let blank := mkLibrary [] "library_data.json" "library_data.csv" in
  match parsed with
  | Return bs =>
      (Return tt,
       {| self := mkLibrary bs "library_data.json" "library_data.csv";
          files := fs; dialogs := ds |})
  | Raise e =>
      (Return tt,
       {| self := blank; files := fs;
          dialogs := ds ++ [showerror "Error" "Failed to load library: "
                              (Some (Exception wrap e))] |})
  | OutOfModel => (OutOfModel, {| self := blank; files := fs; dialogs := ds |})
  end.

(** ** The examples of the specification *)

Definition dune : Book :=
  mkBook (PStr "Dune") (PStr "Frank Herbert") (PStr "Sci-Fi") (PInt 1965).

Definition foundation : Book :=
  mkBook (PStr "Foundation") (PStr "Isaac Asimov") (PStr "Sci-Fi") (PInt 1951).

Definition emma : Book :=
  mkBook (PStr "Emma") (PStr "Jane Austen") (PStr "Novel") (PInt 1815).

(** A store holding [bs], with the canonical file names and the files
    [fs] *)
Definition store (bs : list Book) (fs : gmap string string) : State :=
  {| self := mkLibrary bs "library_data.json" "library_data.csv";
     files := fs; dialogs := [] |}.

(** A CSV file of one row *)
Definition extra_csv : string :=
  "title,author,genre,year
Emma,Jane Austen,Novel,1815
".

(** The text [s] with every apostrophe turned into a double quote *)
Fixpoint requote (s : string) : string :=
  match s with
  | EmptyString => EmptyString
  | String c s' => String (if ascii_eqb c "'" then QUOTE else c) (requote s')
  end.

(** A canonical JSON file whose only record has a year that is a string *)
Definition year_as_text_json : string :=
  requote "[{'title': 'Dune', 'author': 'Frank Herbert', 'genre': 'Sci-Fi', 'year': 'nineteen sixty-five'}]".

(** A canonical JSON file whose only record has no year *)
Definition no_year_json : string :=
  requote "[{'title': 'Dune', 'author': 'Frank Herbert', 'genre': 'Sci-Fi'}]".

(** ** Texts of the encoder, named for the proofs *)

(** The items of an array after the first, each behind its separator *)
Definition more_items (level : nat) : list pyval -> list ascii :=
  fix rest (l : list pyval) : list ascii :=
    match l with
    | [] => []
    | y :: l' =>
        ","%char :: newline_indent (S level) ++ encode (S level) y ++ rest l'
    end.

(** The pairs of an object after the first *)
Definition more_pairs (level : nat) : list (string * pyval) -> list ascii :=
  fix rest (l : list (string * pyval)) : list ascii :=
    match l with
    | [] => []
    | (k', y) :: l' =>
        ","%char :: newline_indent (S level) ++ encode_str k'
        ++ ":"%char :: " "%char :: encode (S level) y ++ rest l'
    end.

(** ** The reader in one pass, for the proofs

    [scan_text r midline text] reads the records of [text] character by
    character, the end of a line being signalled where [file_lines_from]
    cuts.  [midline] tells whether the current line has characters
    already. *)
Definition end_of_input (r : Reader) : outcome (list (list string)) :=
  if bool_decide (field r ≠ []) || bool_decide (state r = IN_QUOTED_FIELD)
  then Return [fields (parse_save_field r)]
  else Return [].

Fixpoint scan_text (r : Reader) (midline : bool) (text : list ascii)
  : outcome (list (list string)) :=
  match text with
  | [] =>
      if midline then
        let* r2 := parse_process_char r None in
        if bool_decide (state r2 = START_RECORD) then Return [fields r2]
        else end_of_input r2
      else end_of_input r
  | c :: t =>
      let* r1 := parse_process_char r (Some c) in
      if line_ends c t then
        let* r2 := parse_process_char r1 None in
        if bool_decide (state r2 = START_RECORD) then
          let* records := scan_text parse_reset false t in
          Return (fields r2 :: records)
        else scan_text r2 false t
      else scan_text r1 true t
  end.

(** The reader having taken the characters of [f] into its field, in the
    state [st] *)
Definition with_field (r : Reader) (st : ParserState) (f : list ascii) : Reader :=
  {| state := st; field := field r ++ f; fields := fields r |}.

(** The reader at the start of the next field, [f] being saved *)
Definition next_field (r : Reader) (f : list ascii) : Reader :=
  {| state := START_FIELD; field := [];
     fields := fields r ++ [string_of_list_ascii (field r ++ f)] |}.

(** The states in which a delimiter or a line end closes the field *)
Definition ends_field (st : ParserState) : Prop :=
  st = START_FIELD \/ st = IN_FIELD \/ st = QUOTE_IN_QUOTED_FIELD.

(** ** The CSV file of a collection of records *)

Definition cell_text (v : pyval) : string :=
  match field_text v with
  | Return s => s
  | _ => EmptyString
  end.

(** The line [writer.writerow] writes for a record *)
Definition record_line (b : Book) : list ascii :=
  csv_writerow (map cell_text [title b; author b; genre b; year b]).

(** The text [_save_to_csv] writes for a collection of records: the header
    and a line for each record *)
Definition books_csv (bs : list Book) : string :=
  string_of_list_ascii (csv_writerow fieldnames ++ concat (map record_line bs)).

(** The state after the collection was written to the canonical CSV
    file *)
Definition saved_csv (st : State) : State :=
  {| self := self st;
     files := <[csv_filename (self st) := books_csv (books (self st))]> (files st);
     dialogs := dialogs st |}.

(** ** Vocabulary of the proofs about numerals and texts *)

(** The value of a numeral read from the left, [acc] being the value of the
    digits already read. *)
Fixpoint uint_value (acc : Z) (d : Decimal.uint) : Z :=
  match d with
  | Decimal.Nil => acc
  | Decimal.D0 d => uint_value (10 * acc + 0) d
  | Decimal.D1 d => uint_value (10 * acc + 1) d
  | Decimal.D2 d => uint_value (10 * acc + 2) d
  | Decimal.D3 d => uint_value (10 * acc + 3) d
  | Decimal.D4 d => uint_value (10 * acc + 4) d
  | Decimal.D5 d => uint_value (10 * acc + 5) d
  | Decimal.D6 d => uint_value (10 * acc + 6) d
  | Decimal.D7 d => uint_value (10 * acc + 7) d
  | Decimal.D8 d => uint_value (10 * acc + 8) d
  | Decimal.D9 d => uint_value (10 * acc + 9) d
  end.

(** A numeral that starts with a digit other than zero *)
Definition leading_nonzero (d : Decimal.uint) : Prop :=
  match d with
  | Decimal.Nil | Decimal.D0 _ => False
  | _ => True
  end.

(** A text that no digit continues *)
Definition no_digit_ahead (l : list ascii) : Prop :=
  match l with
  | [] => True
  | c :: _ => is_digit c = false
  end.

(** What follows a value inside an array or an object, or at the end of
    the text *)
Definition value_end (after : list ascii) : Prop :=
  match after with
  | [] => True
  | c :: _ => c = ","%char \/ c = LF
  end.

(** [scan] reads [v] back from its text at nesting [level]. *)
Definition reads_back (scan : list ascii -> outcome (pyval * list ascii))
    (level : nat) (v : pyval) : Prop :=
  forall after, value_end after -> scan (encode level v ++ after) = Return (v, after).

(** The first character of the text of a value: not white space, and
    neither a closing bracket nor a closing brace. *)
Definition opens_value (c : ascii) : Prop :=
  is_json_ws c = false /\ ascii_eqb c "]" = false /\ ascii_eqb c "}" = false.

(** The four fields [DictReader] finds on the line of a record *)
Definition record_fields (b : Book) : list string :=
  map cell_text [title b; author b; genre b; year b].

(** The nesting of arrays and objects in a value *)
Fixpoint depth (v : pyval) : nat :=
  match v with
  | PList l =>
      S ((fix deepest (l : list pyval) : nat :=
            match l with
            | [] => 0
            | x :: l' => Nat.max (depth x) (deepest l')
            end) l)
  | PDict d =>
      S ((fix deepest (d : list (string * pyval)) : nat :=
            match d with
            | [] => 0
            | (_, x) :: d' => Nat.max (depth x) (deepest d')
            end) d)
  | _ => 0
  end.

(** A value in which the keys of every dict are pairwise distinct, as in
    Python *)
Fixpoint well_formed (v : pyval) : Prop :=
  match v with
  | PList l =>
      (fix all (l : list pyval) : Prop :=
         match l with
         | [] => True
         | x :: l' => well_formed x /\ all l'
         end) l
  | PDict d =>
      NoDup (map fst d)
      /\ (fix all (d : list (string * pyval)) : Prop :=
            match d with
            | [] => True
            | (_, x) :: d' => well_formed x /\ all d'
            end) d
  | _ => True
  end.

(** ** [class LibraryApp]: the window over the store

    The handlers of the buttons, over what they read and write: the text
    of the entries, the rows of the tree view, the status line and the
    dialogs.  An entry holds a string; [Entry.get] reads it and
    [Entry.delete(0, END)] empties it.  The tree view holds the rows
    inserted since it was last emptied.  The path a file dialog returns is
    an argument of the handler, the empty string when the dialog was
    cancelled.  [messagebox.showerror] goes to the log of the store's
    state, as it does for the store; [messagebox.showinfo] has a log of its
    own, so the order between an information and an error is not kept.
    Styles, geometry and the layout of [setup_ui] are not modelled. *)
Module LibraryApp.

Record Widgets : Type := mkWidgets {
  search_entry : string;
  title_entry : string;
  author_entry : string;
  genre_entry : string;
  year_entry : string;
  remove_entry : string;
  tree : list (pyval * pyval * pyval * pyval);
  status_label : string
}.

Record App : Type := mkApp {
  library : State;                  (* [self.library], with its world *)
  widgets : Widgets;
  infos : list (string * string)    (* [showinfo(caption, message)] *)
}.

(** A call of a method of [self.library] *)
Definition call {A} (m : M A) (app : App) : outcome A * App :=
  let '(r, st) := m (library app) in
  (r, {| library := st; widgets := widgets app; infos := infos app |}).

Definition showerror_box (caption message : string) (app : App) : App :=
  {| library := notified (library app) (showerror caption message None);
     widgets := widgets app; infos := infos app |}.

Definition showinfo (caption message : string) (app : App) : App :=
  {| library := library app; widgets := widgets app;
     infos := infos app ++ [(caption, message)] |}.

Definition set_widgets (w : Widgets) (app : App) : App :=
  {| library := library app; widgets := w; infos := infos app |}.

(** [str(n)] for a length *)
Definition str_of_len {A} (l : list A) : string := str_of_int (Z.of_nat (length l)).

(** [update_book_list(books)]; [None] is the call without argument. *)
Definition update_book_list (books_arg : option (list Book)) (app : App) : App :=
  let all_books := books (self (library app)) in
  let books_to_show :=
    match books_arg with
    | Some bs => bs
    | None => all_books
    end in
  let w := widgets app in
  set_widgets
    {| search_entry := search_entry w; title_entry := title_entry w;
       author_entry := author_entry w; genre_entry := genre_entry w;
       year_entry := year_entry w; remove_entry := remove_entry w;
       tree := map (fun b => (title b, author b, genre b, year b)) books_to_show;
       status_label :=
         match books_arg with
         | Some _ =>
             ("Showing " +:+ str_of_len books_to_show +:+ " of "
              +:+ str_of_len all_books +:+ " books (filtered)")%string
         | None => ("Showing all " +:+ str_of_len books_to_show +:+ " books")%string
         end |}
    app.

(** The truth value of a string: it is not empty. *)
Definition truthy (s : string) : bool :=
  match s with
  | EmptyString => false
  | String _ _ => true
  end.

(** The body of the [try] of [add_book]: [int(year)], then the range. *)
Definition year_of_entry (text : string) : outcome Z :=
  let* y := int_of_str text in
  if (y <? 0)%Z || (2100 <? y)%Z then Raise ValueError else Return y.

Definition clear_form (app : App) : App :=
  let w := widgets app in
  set_widgets
    {| search_entry := search_entry w; title_entry := EmptyString;
       author_entry := EmptyString; genre_entry := EmptyString;
       year_entry := EmptyString; remove_entry := remove_entry w;
       tree := tree w; status_label := status_label w |}
    app.

Definition search_books (app : App) : outcome unit * App :=
  let query := search_entry (widgets app) in
  if truthy query then
    match call (search_books query) app with
    | (Return results, app1) => (Return tt, update_book_list (Some results) app1)
    | (Raise e, app1) => (Raise e, app1)
    | (OutOfModel, app1) => (OutOfModel, app1)
    end
  else (Return tt, app).

Definition add_book (app : App) : outcome unit * App :=
  let w := widgets app in
  if negb (truthy (title_entry w) && truthy (author_entry w)
           && truthy (genre_entry w) && truthy (year_entry w)) then
    (Return tt, showerror_box "Error" "All fields are required!" app)
  else
    match year_of_entry (year_entry w) with
    | Raise ValueError =>
        (Return tt, showerror_box "Error" "Year must be a valid number!" app)
    | Raise e => (Raise e, app)
    | OutOfModel => (OutOfModel, app)
    | Return y =>
        let book :=
          mkBook (PStr (title_entry w)) (PStr (author_entry w))
            (PStr (genre_entry w)) (PInt y) in
        match call (add_book book) app with
        | (Return _, app1) =>
            (Return tt,
             showinfo "Success" "Book added successfully!"
               (clear_form (update_book_list None app1)))
        | (Raise e, app1) => (Raise e, app1)
        | (OutOfModel, app1) => (OutOfModel, app1)
        end
    end.

Definition clear_remove_entry (app : App) : App :=
  let w := widgets app in
  set_widgets
    {| search_entry := search_entry w; title_entry := title_entry w;
       author_entry := author_entry w; genre_entry := genre_entry w;
       year_entry := year_entry w; remove_entry := EmptyString;
       tree := tree w; status_label := status_label w |}
    app.

Definition remove_book (app : App) : outcome unit * App :=
  let name := remove_entry (widgets app) in
  if negb (truthy name) then
    (Return tt, showerror_box "Error" "Please enter a title to remove!" app)
  else
    match call (remove_book name) app with
    | (Return true, app1) =>
        (Return tt,
         showinfo "Success" "Book removed successfully!"
           (clear_remove_entry (update_book_list None app1)))
    | (Return false, app1) => (Return tt, showerror_box "Error" "Book not found!" app1)
    | (Raise e, app1) => (Raise e, app1)
    | (OutOfModel, app1) => (OutOfModel, app1)
    end.

(** [file_path] is what [asksaveasfilename] returned. *)
Definition export_library (file_path : string) (app : App) : outcome unit * App :=
  if truthy file_path then
    let format := if endswith file_path ".json" then "json"%string else "csv"%string in
    match call (export_library file_path format) app with
    | (Return true, app1) =>
        (Return tt, showinfo "Success" "Library exported successfully!" app1)
    | (Return false, app1) => (Return tt, app1)
    | (Raise e, app1) => (Raise e, app1)
    | (OutOfModel, app1) => (OutOfModel, app1)
    end
  else (Return tt, app).

(** [file_path] is what [askopenfilename] returned. *)
Definition import_library (file_path : string) (app : App) : outcome unit * App :=
  if truthy file_path then
    match call (import_library file_path) app with
    | (Return true, app1) =>
        (Return tt,
         showinfo "Success" "Library imported successfully!" (update_book_list None app1))
    | (Return false, app1) => (Return tt, app1)
    | (Raise e, app1) => (Raise e, app1)
    | (OutOfModel, app1) => (OutOfModel, app1)
    end
  else (Return tt, app).

(** What [setup_ui] leaves: empty entries, an empty tree, the status
    [Ready] *)
Definition setup_ui : Widgets :=
  {| search_entry := EmptyString; title_entry := EmptyString;
     author_entry := EmptyString; genre_entry := EmptyString;
     year_entry := EmptyString; remove_entry := EmptyString;
     tree := []; status_label := "Ready" |}.

(** [LibraryApp(root)] in the world [(fs, ds)] *)
Definition init (fs : gmap string string) (ds : list Dialog) : outcome unit * App :=
  match Library_init fs ds with
  | (Return _, st) =>
      (Return tt,
       update_book_list None {| library := st; widgets := setup_ui; infos := [] |})
  | (Raise e, st) => (Raise e, {| library := st; widgets := setup_ui; infos := [] |})
  | (OutOfModel, st) => (OutOfModel, {| library := st; widgets := setup_ui; infos := [] |})
  end.

(** What the user does between two turns of the main loop: a text typed
    into the entries, or one of the six buttons of [setup_ui] pressed, the
    file dialog of the last two answering [file_path].  [Show All] is bound
    to [update_book_list] without argument. *)
Inductive Event : Type :=
  | Typing (search title author genre year remove : string)
  | SearchButton
  | ShowAllButton
  | AddButton
  | RemoveButton
  | ExportButton (file_path : string)
  | ImportButton (file_path : string).

Definition handle (ev : Event) (app : App) : outcome unit * App :=
  match ev with
  | Typing search title author genre year remove =>
      (Return tt,
       set_widgets
         {| search_entry := search; title_entry := title; author_entry := author;
            genre_entry := genre; year_entry := year; remove_entry := remove;
            tree := tree (widgets app); status_label := status_label (widgets app) |}
         app)
  | SearchButton => search_books app
  | ShowAllButton => (Return tt, update_book_list None app)
  | AddButton => add_book app
  | RemoveButton => remove_book app
  | ExportButton file_path => export_library file_path app
  | ImportButton file_path => import_library file_path app
  end.

(** [root.mainloop()] over the events [evs]: every event runs its handler;
    an exception that a handler raises is reported by Tk and the loop goes
    on.  The result is the exceptions reported, in their order, and the
    window after the last event. *)
Fixpoint mainloop (evs : list Event) (app : App) : outcome (list exn * App) :=
  match evs with
  | [] => Return ([], app)
  | ev :: evs =>
      match handle ev app with
      | (Return _, app1) => mainloop evs app1
      | (Raise e, app1) =>
          let* (es, app2) := mainloop evs app1 in
          Return (e :: es, app2)
      | (OutOfModel, _) => OutOfModel
      end
  end.

(** [main()] in the world [(fs, ds)], the user doing [evs] *)
Definition main (fs : gmap string string) (ds : list Dialog) (evs : list Event)
  : outcome (list exn * App) :=
  match init fs ds with
  | (Return _, app) => mainloop evs app
  | (Raise e, _) => Raise e
  | (OutOfModel, _) => OutOfModel
  end.

End LibraryApp.

(** ** Vocabulary of the further properties *)




(** What reading the CSV line of a book makes of it: the three texts as
    strings, and the text of the year through [int] *)
Definition reread (b : Book) : outcome Book :=
  let* n := int_of_str (cell_text (year b)) in
  Return (mkBook (PStr (cell_text (title b))) (PStr (cell_text (author b)))
            (PStr (cell_text (genre b))) (PInt n)).


(** The canonical file names of the constructor *)
Definition canonical (lib : Library) : Prop :=
  json_filename lib = "library_data.json"%string
  /\ csv_filename lib = "library_data.csv"%string.


(** What [load_library] leaves when it loads from a file read as
    [parsed], [wrap] being the prefix the loader puts on an error *)
Definition load_with (wrap : string) (parsed : outcome (list Book)) (st : State)
  : outcome bool * State :=
  match parsed with
  | Return bs => (Return true, with_books st bs)
  | Raise e =>
      (Return false,
       notified st (showerror "Error" "Failed to load library: "
                      (Some (Exception wrap e))))
  | OutOfModel => (OutOfModel, st)
  end.

(** A store of one book beside a canonical JSON file whose record has no
    year, and the dialog loading that file brings *)
Definition broken_store : State :=
  store [dune] {[ "library_data.json"%string := no_year_json ]}.

Definition broken_notice : Dialog :=
  showerror "Error" "Failed to load library: "
    (Some (Exception "JSON load error: " (KeyError "year"))).

(** [st'] differs from [st] in the file [path] at most. *)
Definition touches_only (path : string) (st st' : State) : Prop :=
  self st' = self st /\ dialogs st' = dialogs st
  /\ forall p, p <> path -> files st' !! p = files st !! p.

Definition raises {A} (r : outcome A) : Prop :=
  match r with
  | Raise _ => True
  | _ => False
  end.


(** A book with a year in text, no author and a truth value for genre *)
Definition dune_loose : Book :=
  mkBook (PStr "Dune") PNone (PBool true) (PStr " 1965 ").


(** ** Vocabulary of the properties of the window *)

(** The row of a book in the tree view *)
Definition row (b : Book) : pyval * pyval * pyval * pyval :=
  (title b, author b, genre b, year b).

(** The book the form makes of its entries and the year read *)
Definition form_book (w : LibraryApp.Widgets) (y : Z) : Book :=
  mkBook (PStr (LibraryApp.title_entry w)) (PStr (LibraryApp.author_entry w))
    (PStr (LibraryApp.genre_entry w)) (PInt y).

(** The four entries of the form hold a text each. *)
Definition filled (w : LibraryApp.Widgets) : bool :=
  LibraryApp.truthy (LibraryApp.title_entry w)
  && LibraryApp.truthy (LibraryApp.author_entry w)
  && LibraryApp.truthy (LibraryApp.genre_entry w)
  && LibraryApp.truthy (LibraryApp.year_entry w).

(** A book as the form lets them in: title, author and genre are strings
    that are not empty, the year an integer from 0 to 2100. *)
Definition from_form (b : Book) : bool :=
  match title b, author b, genre b, year b with
  | PStr t, PStr a, PStr g, PInt y =>
      LibraryApp.truthy t && LibraryApp.truthy a && LibraryApp.truthy g
      && (0 <=? y)%Z && (y <=? 2100)%Z
  | _, _, _, _ => false
  end.

(** The books of the store behind the window *)
Definition collection (app : LibraryApp.App) : list Book :=
  books (self (LibraryApp.library app)).

(** The tree shows the whole collection. *)
Definition in_sync (app : LibraryApp.App) : Prop :=
  LibraryApp.tree (LibraryApp.widgets app) = map row (collection app).

(** The tree shows books of the collection, in the order of the
    collection. *)
Definition shows_part (app : LibraryApp.App) : Prop :=
  exists shown,
    sublist shown (collection app)
    /\ LibraryApp.tree (LibraryApp.widgets app) = map row shown.

(** A window over a store, as [LibraryApp] leaves it before any event *)
Definition window (st : State) : LibraryApp.App :=
  LibraryApp.update_book_list None
    {| LibraryApp.library := st; LibraryApp.widgets := LibraryApp.setup_ui;
       LibraryApp.infos := [] |}.

(** The widgets after [update_book_list()] over the collection [bs] *)
Definition refreshed (w : LibraryApp.Widgets) (bs : list Book) : LibraryApp.Widgets :=
  {| LibraryApp.search_entry := LibraryApp.search_entry w;
     LibraryApp.title_entry := LibraryApp.title_entry w;
     LibraryApp.author_entry := LibraryApp.author_entry w;
     LibraryApp.genre_entry := LibraryApp.genre_entry w;
     LibraryApp.year_entry := LibraryApp.year_entry w;
     LibraryApp.remove_entry := LibraryApp.remove_entry w;
     LibraryApp.tree := map row bs;
     LibraryApp.status_label :=
       ("Showing all " +:+ LibraryApp.str_of_len bs +:+ " books")%string |}.

(** The widgets after [update_book_list(results)], the collection having
    [total] books *)
Definition filtered (w : LibraryApp.Widgets) (results : list Book) (total : nat)
  : LibraryApp.Widgets :=
  {| LibraryApp.search_entry := LibraryApp.search_entry w;
     LibraryApp.title_entry := LibraryApp.title_entry w;
     LibraryApp.author_entry := LibraryApp.author_entry w;
     LibraryApp.genre_entry := LibraryApp.genre_entry w;
     LibraryApp.year_entry := LibraryApp.year_entry w;
     LibraryApp.remove_entry := LibraryApp.remove_entry w;
     LibraryApp.tree := map row results;
     LibraryApp.status_label :=
       ("Showing " +:+ LibraryApp.str_of_len results +:+ " of "
        +:+ str_of_int (Z.of_nat total) +:+ " books (filtered)")%string |}.

(** The window after the form was accepted with the year [y]: the book is
    in the collection and in the file, the tree shows the collection, the
    form is empty, the user is told. *)
Definition added (app : LibraryApp.App) (y : Z) : LibraryApp.App :=
  let w := LibraryApp.widgets app in
  let bs := collection app ++ [form_book w y] in
  {| LibraryApp.library := saved (LibraryApp.library app) bs;
     LibraryApp.widgets :=
       {| LibraryApp.search_entry := LibraryApp.search_entry w;
          LibraryApp.title_entry := EmptyString;
          LibraryApp.author_entry := EmptyString;
          LibraryApp.genre_entry := EmptyString;
          LibraryApp.year_entry := EmptyString;
          LibraryApp.remove_entry := LibraryApp.remove_entry w;
          LibraryApp.tree := map row bs;
          LibraryApp.status_label :=
            ("Showing all " +:+ LibraryApp.str_of_len bs +:+ " books")%string |};
     LibraryApp.infos :=
       LibraryApp.infos app ++ [("Success", "Book added successfully!")%string] |}.

(** The window after a removal left the collection [bs] *)
Definition removed (app : LibraryApp.App) (bs : list Book) : LibraryApp.App :=
  let w := LibraryApp.widgets app in
  {| LibraryApp.library := saved (LibraryApp.library app) bs;
     LibraryApp.widgets :=
       {| LibraryApp.search_entry := LibraryApp.search_entry w;
          LibraryApp.title_entry := LibraryApp.title_entry w;
          LibraryApp.author_entry := LibraryApp.author_entry w;
          LibraryApp.genre_entry := LibraryApp.genre_entry w;
          LibraryApp.year_entry := LibraryApp.year_entry w;
          LibraryApp.remove_entry := EmptyString;
          LibraryApp.tree := map row bs;
          LibraryApp.status_label :=
            ("Showing all " +:+ LibraryApp.str_of_len bs +:+ " books")%string |};
     LibraryApp.infos :=
       LibraryApp.infos app ++ [("Success", "Book removed successfully!")%string] |}.

(** A start of the program in the files [fs] finds the store object
    [lib]. *)
Definition restores (fs : gmap string string) (lib : Library) : Prop :=
  forall ds,
    Library_init fs ds = (Return tt, {| self := lib; files := fs; dialogs := ds |}).

(** What a session without imports keeps: the file names of the
    constructor, books as the form makes them, and files from which the
    next start finds the collection. *)
Definition durable (app : LibraryApp.App) : Prop :=
  json_filename (self (LibraryApp.library app)) = "library_data.json"%string
  /\ csv_filename (self (LibraryApp.library app)) = "library_data.csv"%string
  /\ Forall (fun b => from_form b = true) (collection app)
  /\ restores (files (LibraryApp.library app)) (self (LibraryApp.library app)).

Definition is_import (ev : LibraryApp.Event) : bool :=
  match ev with
  | LibraryApp.ImportButton _ => true
  | _ => false
  end.

(** A form filled for the book [dune], and the same with a year out of
    range *)
Definition dune_form : LibraryApp.Widgets :=
  {| LibraryApp.search_entry := EmptyString; LibraryApp.title_entry := "Dune";
     LibraryApp.author_entry := "Frank Herbert"; LibraryApp.genre_entry := "Sci-Fi";
     LibraryApp.year_entry := " 1965 "; LibraryApp.remove_entry := EmptyString;
     LibraryApp.tree := []; LibraryApp.status_label := "Ready" |}.

(** A window over three books, [DUNE] typed into the entry of the removal *)
Definition remove_dune : LibraryApp.App :=
  LibraryApp.set_widgets
    {| LibraryApp.search_entry := EmptyString; LibraryApp.title_entry := EmptyString;
       LibraryApp.author_entry := EmptyString; LibraryApp.genre_entry := EmptyString;
       LibraryApp.year_entry := EmptyString; LibraryApp.remove_entry := "DUNE";
       LibraryApp.tree := map row [foundation; dune; emma];
       LibraryApp.status_label := "Showing all 3 books" |}
    (window (store [foundation; dune; emma] ∅)).

(** The same window, [austen] typed into the entry of the search *)
Definition search_austen : LibraryApp.App :=
  LibraryApp.set_widgets
    {| LibraryApp.search_entry := "austen"; LibraryApp.title_entry := EmptyString;
       LibraryApp.author_entry := EmptyString; LibraryApp.genre_entry := EmptyString;
       LibraryApp.year_entry := EmptyString; LibraryApp.remove_entry := EmptyString;
       LibraryApp.tree := map row [foundation; dune; emma];
       LibraryApp.status_label := "Showing all 3 books" |}
    (window (store [foundation; dune; emma] ∅)).

(** The window that opens over the files of [broken_store] *)
Definition broken_window : LibraryApp.App :=
  window (notified (store [] (files broken_store)) broken_notice).

(** An evening at the window: two books added, a search, an export under
    the name of the canonical CSV file, the first book removed *)
Definition evening : list LibraryApp.Event :=
  [LibraryApp.Typing EmptyString "Dune" "Frank Herbert" "Sci-Fi" " 1965 " EmptyString;
   LibraryApp.AddButton;
   LibraryApp.Typing "austen" "Emma" "Jane Austen" "Novel" "1815" "dune";
   LibraryApp.AddButton;
   LibraryApp.SearchButton;
   LibraryApp.ExportButton "library_data.csv";
   LibraryApp.RemoveButton;
   LibraryApp.ShowAllButton].

(** ** Vocabulary of the CSV tables *)





(** ** Vocabulary of the parsed values *)





(** * Properties *)

(** ** Saving *)

Lemma write_after_open (path text : string) (fs : gmap string string) :
  <[path := (default EmptyString (<[path := EmptyString]> fs !! path) +:+ text)%string]>
    (<[path := EmptyString]> fs) = <[path := text]> fs.
Proof.
  rewrite lookup_insert_eq. simpl. by rewrite insert_insert_eq.
Qed.

Lemma _save_to_json_run st :
  _save_to_json st = (Return true, saved st (books (self st))).
Proof.
  destruct st as [[bs jf cf] fs ds].
  unfold _save_to_json, try_except, dump_books, open_w, write, get_self.
  unfold mbind, M_bind, mret, M_ret, saved, books_json. simpl.
  by rewrite write_after_open.
Qed.

Lemma save_library_json st :
  save_library "json" st = (Return true, saved st (books (self st))).
Proof.
  unfold save_library, try_except. simpl (String.eqb _ _).
  by rewrite _save_to_json_run.
Qed.


(** C9.  [save_library] with a format other than json and csv returns
    [False]: nothing is raised, no file is written, no dialog is shown and
    the collection is untouched. *)
Theorem save_library_unknown_format st format :
  format <> "json"%string -> format <> "csv"%string ->
  save_library format st = (Return false, st).
Proof.
  intros Hj Hc. unfold save_library, try_except.
  apply String.eqb_neq in Hj, Hc. by rewrite Hj, Hc.
Qed.

Lemma save_library_unknown_format_witness :
  save_library "xml"
    {| self := mkLibrary [mkBook (PStr "Dune") (PStr "Frank Herbert") (PStr "Sci-Fi") (PInt 1965)]
                 "library_data.json" "library_data.csv";
       files := ∅; dialogs := [] |}
  = (Return false,
     {| self := mkLibrary [mkBook (PStr "Dune") (PStr "Frank Herbert") (PStr "Sci-Fi") (PInt 1965)]
                  "library_data.json" "library_data.csv";
        files := ∅; dialogs := [] |}).
Proof.
  apply save_library_unknown_format; discriminate.
Defined.

(** ** Removing *)

Lemma title_is_lower name b :
  title_is name b = true ->
  exists s, title b = PStr s /\ lower_of (title b) = Return (lower s)
            /\ String.eqb (lower s) (lower name) = true.
Proof.
  unfold title_is. destruct (title b); try discriminate. eauto.
Qed.

Lemma find_title_skip name i b bs :
  has_str_title b = true -> title_is name b = false ->
  find_title name i (b :: bs) = find_title name (S i) bs.
Proof.
  unfold has_str_title, title_is. simpl.
  destruct (title b); try discriminate. simpl. by intros _ ->.
Qed.

Lemma find_title_found name pre : forall i b post,
  Forall (fun x => has_str_title x = true) pre ->
  Forall (fun x => title_is name x = false) pre ->
  title_is name b = true ->
  find_title name i (pre ++ b :: post) = Return (Some (i + length pre)).
Proof.
  induction pre as [|x pre IH]; intros i b post Hs Hn Hb.
  - apply title_is_lower in Hb as (s & Ht & Hl & He).
    simpl. rewrite Hl. simpl. rewrite He. do 2 f_equal. lia.
  - inversion Hs; inversion Hn; subst.
    rewrite <- app_comm_cons, find_title_skip by done.
    rewrite IH by done. simpl. do 2 f_equal. lia.
Qed.


(** What a search that returns an index has seen on its way *)
Lemma find_title_inv name bs : forall i j,
  find_title name i bs = Return (Some j) ->
  exists pre b post,
    bs = pre ++ b :: post /\ j = i + length pre
    /\ Forall (fun x => has_str_title x = true /\ title_is name x = false) pre
    /\ title_is name b = true.
Proof.
  induction bs as [|x bs IH]; intros i j H; [discriminate|].
  simpl in H. unfold lower_of in H.
  destruct (title x) as [| | |s| |] eqn:Ht; try discriminate. simpl in H.
  destruct (String.eqb (lower s) (lower name)) eqn:E.
  - injection H as <-. exists [], x, bs. repeat split; [simpl; lia|constructor|].
    unfold title_is. by rewrite Ht.
  - apply IH in H as (pre & b & post & -> & -> & Hpre & Hb).
    exists (x :: pre), b, post. repeat split; [simpl; lia| |done].
    constructor; [|done]. unfold has_str_title, title_is. by rewrite Ht.
Qed.

Lemma remove_book_run st name :
  remove_book name st =
  match find_title name 0 (books (self st)) with
  | Return (Some i) => (Return true, saved st (delete i (books (self st))))
  | Return None => (Return false, st)
  | Raise e => (Raise e, st)
  | OutOfModel => (OutOfModel, st)
  end.
Proof.
  unfold remove_book, get_self, set_books, lift, mbind, M_bind.
  destruct (find_title name 0 (books (self st))) as [[i|]|e|]; try reflexivity.
  cbn -[save_library]. by rewrite save_library_json.
Qed.


(** C10.  When [remove_book] returns [True], the collection has lost one
    record and nothing else: it was [pre ++ b :: post] and it is
    [pre ++ post], where [b] is the first record whose title matches.
    Records of [post] with the same title are still there, and the order
    of the others is the same. *)
Theorem remove_book_frame st name st' :
  remove_book name st = (Return true, st') ->
  exists pre b post,
    books (self st) = pre ++ b :: post
    /\ books (self st') = pre ++ post
    /\ title_is name b = true
    /\ Forall (fun x => title_is name x = false) pre
    /\ length (books (self st)) = S (length (books (self st'))).
Proof.
  rewrite remove_book_run.
  destruct (find_title name 0 (books (self st))) as [[i|]|e|] eqn:Hf;
    intros H; try discriminate.
  injection H as <-.
  apply find_title_inv in Hf as (pre & b & post & Hbooks & -> & Hpre & Hb).
  exists pre, b, post. rewrite Hbooks. simpl. rewrite delete_middle.
  repeat split; try done.
  - eapply Forall_impl; [exact Hpre|]. by intros x [_ ?].
  - rewrite !length_app. simpl. lia.
Qed.

(** ** Searching *)

Lemma book_matches_typed query b :
  has_str_fields b = true ->
  book_matches (lower query) b = Return (matches_query query b).
Proof.
  unfold has_str_fields, book_matches, matches_query, lower_of.
  destruct (title b); try discriminate.
  destruct (author b); try discriminate.
  destruct (genre b); try discriminate. intros _. simpl.
  destruct (contains (lower s) (lower query)); [done|].
  simpl. by destruct (contains (lower s0) (lower query)).
Qed.

Lemma search_loop_filter query bs :
  Forall (fun b => has_str_fields b = true) bs ->
  search_loop (lower query) bs = Return (List.filter (matches_query query) bs).
Proof.
  induction 1 as [|b bs Hb _ IH]; [done|].
  simpl. rewrite book_matches_typed, IH by done. simpl.
  by destruct (matches_query query b).
Qed.

Lemma startswith_empty s : startswith s "" = true.
Proof. by destruct s. Qed.

Lemma contains_empty s : contains s "" = true.
Proof. destruct s; simpl; by rewrite ?startswith_empty. Qed.

Lemma matches_empty_query b :
  has_str_fields b = true -> matches_query "" b = true.
Proof.
  unfold has_str_fields, matches_query.
  destruct (title b); try discriminate.
  destruct (author b); try discriminate.
  destruct (genre b); try discriminate. intros _.
  change (lower "") with ""%string. by rewrite contains_empty.
Qed.

(** C6.  On a collection whose titles, authors and genres are strings,
    [search_books] returns the records of which the lowered title, author
    or genre contains the lowered query, in the order of the collection,
    and leaves the state as it was; with the empty query that is the whole
    collection. *)
Theorem search_books_filter st query :
  Forall (fun b => has_str_fields b = true) (books (self st)) ->
  search_books query st = (Return (List.filter (matches_query query) (books (self st))), st)
  /\ search_books "" st = (Return (books (self st)), st).
Proof.
  intros Hs. unfold search_books, get_self, lift, mbind, M_bind. simpl. split.
  - by rewrite search_loop_filter.
  - rewrite (search_loop_filter "") by done. do 2 f_equal.
    clear -Hs. induction Hs as [|b bs Hb _ IH]; [done|].
    simpl. rewrite matches_empty_query by done. by rewrite IH.
Qed.


Lemma remove_book_frame_witness :
  exists pre b post,
    [dune; foundation; dune] = pre ++ b :: post
    /\ [foundation; dune] = pre ++ post
    /\ title_is "dune" b = true
    /\ Forall (fun x => title_is "dune" x = false) pre
    /\ 3 = S 2.
Proof.
  apply (remove_book_frame (store [dune; foundation; dune] ∅) "dune"
           (saved (store [dune; foundation; dune] ∅) [foundation; dune])).
  vm_compute. reflexivity.
Defined.

Lemma search_books_filter_witness :
  search_books "dune" (store [dune; foundation] ∅) = (Return [dune], store [dune; foundation] ∅)
  /\ search_books "" (store [dune; foundation] ∅)
     = (Return [dune; foundation], store [dune; foundation] ∅).
Proof.
  apply (search_books_filter (store [dune; foundation] ∅) "dune").
  repeat constructor.
Defined.

(** The second search of the specification: both records are of the genre
    asked for. *)
Example search_books_genre :
  fst (search_books "sci-fi" (store [dune; foundation] ∅)) = Return [dune; foundation].
Proof. reflexivity. Qed.

(** ** Importing *)

Lemma import_library_run st filename :
  import_library filename st =
  if endswith filename ".json" then import_with books_of_json filename st
  else if endswith filename ".csv" then import_with books_of_csv filename st
  else (Return false, notified st (showerror "Error" "Unsupported file format" None)).
Proof.
  unfold import_library, import_with, try_except.
  destruct (endswith filename ".json");
    [|destruct (endswith filename ".csv"); [|done]].
  all: unfold read_file, lift, get_self, set_books, mbind, M_bind;
    destruct (files st !! filename) as [text|]; [|done].
  - destruct (books_of_json text); try done.
    cbn -[save_library]. by rewrite save_library_json.
  - destruct (books_of_csv text); try done.
    cbn -[save_library]. by rewrite save_library_json.
Qed.

Lemma import_with_failure parse filename st st' :
  import_with parse filename st = (Return false, st') ->
  exists d, st' = notified st d.
Proof.
  unfold import_with. destruct (files st !! filename) as [text|].
  - destruct (parse text); intros H; try discriminate. injection H as <-. eauto.
  - intros H. injection H as <-. eauto.
Qed.


(** A file that does not parse is reported with a dialog and [False]. *)
Lemma import_library_parse_error st filename text e :
  files st !! filename = Some text ->
  (endswith filename ".json" = true /\ books_of_json text = Raise e)
  \/ (endswith filename ".json" = false /\ endswith filename ".csv" = true
      /\ books_of_csv text = Raise e) ->
  import_library filename st
  = (Return false, notified st (showerror "Error" "Failed to import library: " (Some e))).
Proof.
  intros Hf [[Hj Hp]|(Hj & Hc & Hp)]; rewrite import_library_run, Hj, ?Hc;
    unfold import_with; by rewrite Hf, Hp.
Qed.

(** C3.  When [import_library] returns [False], for an unsupported
    extension, a missing file or a file that does not parse, the store
    object (so the collection) and the files are what they were; one
    dialog was shown. *)
Theorem import_library_failure st filename st' :
  import_library filename st = (Return false, st') ->
  self st' = self st /\ files st' = files st
  /\ exists d, dialogs st' = dialogs st ++ [d].
Proof.
  rewrite import_library_run. intros H.
  assert (exists d, st' = notified st d) as [d ->]; [|by eauto].
  destruct (endswith filename ".json"); [by eapply import_with_failure|].
  destruct (endswith filename ".csv"); [by eapply import_with_failure|].
  injection H as <-. eauto.
Qed.

Lemma import_library_failure_witness :
  self (notified (store [dune; foundation] ∅)
          (showerror "Error" "Unsupported file format" None))
  = self (store [dune; foundation] ∅)
  /\ files (notified (store [dune; foundation] ∅)
              (showerror "Error" "Unsupported file format" None))
     = files (store [dune; foundation] ∅)
  /\ exists d,
      dialogs (notified (store [dune; foundation] ∅)
                 (showerror "Error" "Unsupported file format" None))
      = dialogs (store [dune; foundation] ∅) ++ [d].
Proof.
  apply (import_library_failure (store [dune; foundation] ∅) "notes.txt").
  reflexivity.
Defined.



(** The example of the specification: after the import the collection has
    three records, and so has the canonical file. *)
Example import_one_row :
  let st := store [dune; foundation] {[ "extra.csv"%string := extra_csv ]} in
  let st' := snd (import_library "extra.csv" st) in
  books (self st') = [dune; foundation; emma]
  /\ (text ← files st' !! "library_data.json"; Some (books_of_json text))
     = Some (Return [dune; foundation; emma]).
Proof. vm_compute. split; reflexivity. Qed.

(** ** Records from mappings *)

(** C2, as the code has it.  [from_dict] raises [KeyError] for the first of
    title, author, genre, year that the mapping lacks, and [TypeError] for
    a value that is not a mapping.  It checks no type: with the four keys
    present it returns the record that holds their values as they are. *)
Theorem from_dict_checks_keys_only data :
  match data with
  | PDict d =>
      match dict_get d "title", dict_get d "author", dict_get d "genre", dict_get d "year" with
      | Some t, Some a, Some g, Some y => from_dict data = Return (mkBook t a g y)
      | None, _, _, _ => from_dict data = Raise (KeyError "title")
      | Some _, None, _, _ => from_dict data = Raise (KeyError "author")
      | Some _, Some _, None, _ => from_dict data = Raise (KeyError "genre")
      | Some _, Some _, Some _, None => from_dict data = Raise (KeyError "year")
      end
  | _ => from_dict data = Raise TypeError
  end.
Proof.
  destruct data as [| | | | |d]; try reflexivity.
  unfold from_dict, getitem.
  destruct (dict_get d "title"); [|done].
  destruct (dict_get d "author"); [|done].
  destruct (dict_get d "genre"); [|done].
  by destruct (dict_get d "year").
Qed.

(** C2, as stated, fails: a mapping whose year is a string makes a record,
    and a canonical JSON file with such a record loads without any error
    being reported. *)
Lemma from_dict_accepts_any_year :
  from_dict (PDict [("title", PStr "Dune"); ("author", PStr "Frank Herbert");
                    ("genre", PStr "Sci-Fi"); ("year", PStr "nineteen sixty-five")]%string)
  = Return (mkBook (PStr "Dune") (PStr "Frank Herbert") (PStr "Sci-Fi")
              (PStr "nineteen sixty-five"))
  /\ Library_init {[ "library_data.json"%string := year_as_text_json ]} []
     = (Return tt,
        store [mkBook (PStr "Dune") (PStr "Frank Herbert") (PStr "Sci-Fi")
                 (PStr "nineteen sixty-five")]
          {[ "library_data.json"%string := year_as_text_json ]}).
Proof. split; vm_compute; reflexivity. Qed.

(** A canonical JSON file with a record that lacks a key does fail to
    load: the collection stays empty and the error is reported. *)
Example load_missing_year :
  Library_init {[ "library_data.json"%string := no_year_json ]} []
  = (Return tt,
     notified (store [] {[ "library_data.json"%string := no_year_json ]})
       (showerror "Error" "Failed to load library: "
          (Some (Exception "JSON load error: " (KeyError "year"))))).
Proof. vm_compute. reflexivity. Qed.

(** ** Construction *)

Lemma Library_init_run fs ds :
  Library_init fs ds =
  match fs !! "library_data.json"%string with
  | Some text => loaded "JSON load error: " (books_of_json text) fs ds
  | None =>
      match fs !! "library_data.csv"%string with
      | Some text => loaded "CSV load error: " (books_of_csv text) fs ds
      | None =>
          (Return tt,
           {| self := mkLibrary [] "library_data.json" "library_data.csv";
              files := fs; dialogs := ds |})
      end
  end.
Proof.
  unfold Library_init, load_library, loaded.
  unfold try_except at 1. unfold path_exists, get_self.
  unfold mbind at 1 2 3 4, M_bind. cbn [self files json_filename csv_filename fst snd].
  destruct (fs !! "library_data.json"%string) as [text|] eqn:Hj.
  - rewrite bool_decide_eq_true_2 by eauto.
    unfold _load_from_json, get_self. unfold try_except, mbind, M_bind, read_file, lift, set_books, raise, show, mret, M_ret.
    cbn [self files json_filename csv_filename dialogs]. rewrite Hj.
    by destruct (books_of_json text).
  - rewrite bool_decide_eq_false_2 by (apply is_Some_None).
    cbn [self files json_filename csv_filename].
    destruct (fs !! "library_data.csv"%string) as [text|] eqn:Hc.
    + rewrite bool_decide_eq_true_2 by eauto.
      unfold _load_from_csv, get_self. unfold try_except, mbind, M_bind, read_file, lift, set_books, raise, show, mret, M_ret.
      cbn [self files json_filename csv_filename dialogs]. rewrite Hc.
      by destruct (books_of_csv text).
    + rewrite bool_decide_eq_false_2 by (apply is_Some_None). reflexivity.
Qed.


(** ** Decimal numerals *)

Lemma uint_value_acc d : forall acc : positive,
  uint_value (Z.pos acc) d = Z.pos (Pos.of_uint_acc d acc).
Proof.
  induction d; intros acc; simpl; try reflexivity;
    rewrite <- IHd; f_equal; lia.
Qed.

Lemma uint_value_of_uint d : uint_value 0 d = Z.of_N (Pos.of_uint d).
Proof.
  induction d; simpl; try reflexivity; try apply (uint_value_acc d).
  exact IHd.
Qed.

Lemma uint_value_to_uint p : uint_value 0 (Pos.to_uint p) = Z.pos p.
Proof. by rewrite uint_value_of_uint, DecimalPos.Unsigned.of_to. Qed.

Lemma to_uint_leading_nonzero p : leading_nonzero (Pos.to_uint p).
Proof.
  pose proof (DecimalPos.Unsigned.to_of (Pos.to_uint p)) as H.
  rewrite DecimalPos.Unsigned.of_to in H. simpl in H.
  pose proof (DecimalPos.Unsigned.to_uint_nonzero p) as Hnz.
  destruct (Pos.to_uint p) as [|d| | | | | | | | |] eqn:E; simpl; try exact I.
  - by apply (DecimalPos.Unsigned.to_uint_nonnil p).
  - unfold Decimal.unorm in H. simpl in H.
    destruct (Decimal.nzhead d) as [|u| | | | | | | | |] eqn:En; try discriminate.
    + injection H as ->. by apply Hnz.
    + by apply (DecimalFacts.nzhead_nonzero d u).
Qed.

Lemma digits_value_uint d : forall acc after,
  no_digit_ahead after ->
  digits_value acc (uint_chars d ++ after) = (uint_value acc d, after).
Proof.
  induction d; intros acc after Hafter; simpl;
    try (rewrite IHd by done; do 2 f_equal;
         unfold digit_value; simpl; lia).
  destruct after as [|c after]; [done|]. simpl in *. by rewrite Hafter.
Qed.

Lemma int_digits_uint d : forall acc prev after,
  match after with
  | [] => True
  | c :: _ => is_digit c = false /\ ascii_eqb c "_" = false
  end ->
  int_digits acc prev (uint_chars d ++ after) = Some (uint_value acc d, after).
Proof.
  induction d; intros acc prev after Hafter; simpl;
    try (rewrite IHd by done; do 2 f_equal;
         unfold digit_value; simpl; lia).
  destruct after as [|c after]; [done|]. simpl. by destruct Hafter as [-> ->].
Qed.

Lemma uint_chars_head d :
  leading_nonzero d ->
  exists c l, uint_chars d = c :: l /\ is_digit c = true /\ ascii_eqb c "0" = false
              /\ ascii_eqb c "-" = false /\ ascii_eqb c "+" = false
              /\ is_int_space c = false.
Proof.
  destruct d; simpl; try done; intros _; eexists _, _; repeat split.
Qed.

(** [int(str(z)) == z] *)
Lemma int_of_str_of_int z : int_of_str (str_of_int z) = Return z.
Proof.
  unfold int_of_str, str_of_int. rewrite list_ascii_of_string_of_list_ascii.
  unfold int_chars, int_of_chars. destruct z as [|p|p]; [reflexivity| |]; simpl.
  - destruct (uint_chars_head _ (to_uint_leading_nonzero p))
      as (c & l & E & Hd & _ & Hm & Hp & Hs).
    rewrite E. simpl. rewrite Hs, Hp, Hm, Hd. rewrite <- E.
    rewrite <- (app_nil_r (uint_chars _)), int_digits_uint by done.
    simpl. by rewrite uint_value_to_uint.
  - destruct (uint_chars_head _ (to_uint_leading_nonzero p))
      as (c & l & E & Hd & _ & Hm & Hp & Hs).
    rewrite E, Hd. rewrite <- E.
    rewrite <- (app_nil_r (uint_chars _)), int_digits_uint by done.
    simpl. by rewrite uint_value_to_uint.
Qed.

(** ** The decoder reads back what the encoder wrote *)

Lemma scanstring_escape_char c l :
  scanstring (escape_char c ++ l) =
  let* (s, r) := scanstring l in Return (String c s, r).
Proof.
  destruct c as [[] [] [] [] [] [] [] []]; reflexivity.
Qed.

Lemma scanstring_escape_chars s after :
  scanstring (escape_chars s ++ QUOTE :: after) = Return (s, after).
Proof.
  induction s as [|c s IH]; [reflexivity|].
  simpl. rewrite <- app_assoc, scanstring_escape_char. by rewrite IH.
Qed.

Lemma value_end_no_digit after : value_end after -> no_digit_ahead after.
Proof. destruct after as [|c ?]; [done|]. by intros [-> | ->]. Qed.

Lemma value_end_no_float after : value_end after -> float_follows after = false.
Proof.
  destruct after as [|c [|d ?]]; try done. by intros [-> | ->].
Qed.

Lemma skip_ws_spaces k l :
  skip_while is_json_ws (repeat " "%char k ++ l) = skip_while is_json_ws l.
Proof. induction k; [done|]. simpl. exact IHk. Qed.

Lemma skip_ws_newline_indent k l :
  skip_while is_json_ws (newline_indent k ++ l) = skip_while is_json_ws l.
Proof. unfold newline_indent. simpl. apply skip_ws_spaces. Qed.

Lemma int_chars_head z :
  exists c l, int_chars z = c :: l /\ opens_value c
    /\ ascii_eqb c QUOTE = false /\ ascii_eqb c "{" = false /\ ascii_eqb c "[" = false
    /\ (is_digit c = true \/ c = "-"%char).
Proof.
  unfold int_chars. destruct z as [|p|p]; simpl.
  - eexists _, _. repeat split. by left.
  - pose proof (to_uint_leading_nonzero p) as H.
    destruct (Pos.to_uint p); simpl; try done;
      eexists _, _; repeat split; by left.
  - eexists _, _. repeat split. by right.
Qed.

Lemma encode_head level v :
  exists c l, encode level v = c :: l /\ opens_value c.
Proof.
  destruct v as [|[]|z|s|[|x xs]|[|[k x] kxs]]; try (eexists _, _; by repeat split).
  destruct (int_chars_head z) as (c & l & E & H & _). eauto.
Qed.

Lemma skip_ws_encode level v l :
  skip_while is_json_ws (encode level v ++ l) = encode level v ++ l.
Proof.
  destruct (encode_head level v) as (c & t & -> & Hws & _). simpl. by rewrite Hws.
Qed.

Lemma starts_cons_ne c l p q :
  ascii_eqb c p = false -> starts (c :: l) (String p q) = None.
Proof.
  intros Hne. unfold starts. simpl. rewrite bool_decide_eq_false_2; [done|].
  intros [= -> _]. unfold ascii_eqb in Hne. by rewrite Ascii.eqb_refl in Hne.
Qed.

(** A value that is neither an array nor an object is read at any depth. *)
Lemma scan_once_atom depth c l :
  ascii_eqb c "{" = false -> ascii_eqb c "[" = false ->
  scan_once depth (c :: l) = scan_once 0 (c :: l).
Proof. intros Ho Ha. destruct depth; simpl; by rewrite Ho, Ha. Qed.

Lemma scan_once_int depth level z : reads_back (scan_once depth) level (PInt z).
Proof.
  intros after Hafter. simpl.
  destruct (int_chars_head z) as (c0 & l0 & E0 & _ & _ & Ho & Ha & _).
  rewrite E0. simpl. rewrite scan_once_atom by done. rewrite app_comm_cons, <- E0.
  pose proof (value_end_no_float _ Hafter) as Hfl.
  pose proof (value_end_no_digit _ Hafter) as Hnd.
  clear c0 l0 E0 Ho Ha.
  unfold int_chars. destruct z as [|p|p]; simpl.
  - unfold starts. simpl. unfold match_number. simpl. by rewrite Hfl.
  - destruct (uint_chars_head _ (to_uint_leading_nonzero p))
      as (c & l & E & Hd & Hz & Hm & _).
    assert (Hc : forall x, is_digit x = false -> ascii_eqb c x = false).
    { intros x Hx. unfold ascii_eqb. apply Ascii.eqb_neq. intros ->. congruence. }
    rewrite E. simpl. rewrite !Hc by done.
    rewrite !starts_cons_ne by (apply Hc; done).
    unfold match_number. rewrite Hm, Hz, Hd. rewrite app_comm_cons, <- E.
    rewrite digits_value_uint by done. by rewrite Hfl, uint_value_to_uint.
  - destruct (uint_chars_head _ (to_uint_leading_nonzero p))
      as (c & l & E & Hd & Hz & Hm & _).
    rewrite ?starts_cons_ne by done.
    assert (starts ("-"%char :: uint_chars (Pos.to_uint p) ++ after) "-Infinity" = None) as ->.
    { rewrite E. unfold starts. simpl. rewrite bool_decide_eq_false_2; [done|].
      intros [= -> _]. discriminate. }
    unfold match_number. simpl. rewrite E. cbn [app]. rewrite Hz, Hd.
    rewrite app_comm_cons, <- E.
    rewrite digits_value_uint by done. by rewrite Hfl, uint_value_to_uint.
Qed.

Lemma scan_once_str depth level s : reads_back (scan_once depth) level (PStr s).
Proof.
  intros after _. simpl. rewrite scan_once_atom by done. simpl.
  rewrite <- app_assoc. cbn [app]. by rewrite scanstring_escape_chars.
Qed.

Lemma scan_once_none depth level : reads_back (scan_once depth) level PNone.
Proof. intros after _. simpl. by rewrite scan_once_atom. Qed.

Lemma scan_once_bool depth level b : reads_back (scan_once depth) level (PBool b).
Proof. intros after _. destruct b; simpl; by rewrite scan_once_atom. Qed.

Lemma encode_list level x xs :
  encode level (PList (x :: xs)) =
  "["%char :: newline_indent (S level) ++ encode (S level) x
  ++ more_items level xs ++ newline_indent level ++ ["]"%char].
Proof. reflexivity. Qed.

Lemma encode_dict level k x kxs :
  encode level (PDict ((k, x) :: kxs)) =
  "{"%char :: newline_indent (S level) ++ encode_str k
  ++ ":"%char :: " "%char :: encode (S level) x
  ++ more_pairs level kxs ++ newline_indent level ++ ["}"%char].
Proof. reflexivity. Qed.

Lemma skip_ws_closing (c : ascii) k l :
  is_json_ws c = false ->
  skip_while is_json_ws (newline_indent k ++ c :: l) = c :: l.
Proof. intros Hc. rewrite skip_ws_newline_indent. simpl. by rewrite Hc. Qed.

Lemma value_end_newline_indent k l : value_end (newline_indent k ++ l).
Proof. by right. Qed.

Lemma parse_array_items_reads scan level xs : forall x n after,
  Forall (reads_back scan (S level)) (x :: xs) ->
  length (x :: xs) <= n ->
  parse_array_items scan n
    (encode (S level) x ++ more_items level xs ++ newline_indent level ++ "]"%char :: after)
  = Return (x :: xs, after).
Proof.
  induction xs as [|y ys IH]; intros x n after HF Hn;
    (destruct n as [|n]; [simpl in Hn; lia|]);
    inversion HF as [|? ? Hx HF']; subst; cbn [parse_array_items].
  - cbn [more_items app]. rewrite Hx by apply value_end_newline_indent.
    cbn [obind]. by rewrite skip_ws_closing.
  - cbn [more_items]. rewrite <- !app_comm_cons. rewrite Hx by (by left).
    cbn [obind skip_while]. replace (is_json_ws ",") with false by done.
    replace (ascii_eqb "," "]") with false by done.
    replace (ascii_eqb "," ",") with true by done.
    rewrite <- !app_assoc, skip_ws_newline_indent, skip_ws_encode.
    fold (more_items level). rewrite IH; [done|done|simpl in *; lia].
Qed.

Lemma scanstring_key k l :
  scanstring (tail (encode_str k ++ l)) = Return (k, l).
Proof.
  unfold encode_str. cbn [tail app]. rewrite <- app_assoc. apply scanstring_escape_chars.
Qed.

Lemma skip_ws_stop (c : ascii) l :
  is_json_ws c = false -> skip_while is_json_ws (c :: l) = c :: l.
Proof. intros H. simpl. by rewrite H. Qed.

Lemma skip_ws_space l :
  skip_while is_json_ws (" "%char :: l) = skip_while is_json_ws l.
Proof. reflexivity. Qed.

(** One pair at the head of the text: the key, the colon, the value. *)
Lemma parse_object_pairs_step scan level k x n rest :
  reads_back scan (S level) x ->
  value_end rest ->
  parse_object_pairs scan (S n)
    (encode_str k ++ ":"%char :: " "%char :: encode (S level) x ++ rest)
  = match skip_while is_json_ws rest with
    | d :: r3 =>
        if ascii_eqb d "}" then Return ([(k, x)], r3)
        else if ascii_eqb d "," then
          let* (kvs, r4) := parse_object_pairs scan n (skip_while is_json_ws r3) in
          Return ((k, x) :: kvs, r4)
        else Raise JSONDecodeError
    | [] => Raise JSONDecodeError
    end.
Proof.
  intros Hx Hrest.
  change (encode_str k ++ ?l) with (QUOTE :: tail (encode_str k ++ l)).
  cbn [parse_object_pairs].
  replace (ascii_eqb QUOTE QUOTE) with true by done.
  rewrite scanstring_key. cbn [obind].
  rewrite skip_ws_stop by done.
  replace (ascii_eqb ":" ":") with true by done.
  rewrite skip_ws_space, skip_ws_encode, Hx by done. reflexivity.
Qed.

Lemma parse_object_pairs_reads scan level kxs : forall k x n after,
  Forall (fun kv => reads_back scan (S level) (snd kv)) ((k, x) :: kxs) ->
  length ((k, x) :: kxs) <= n ->
  parse_object_pairs scan n
    (encode_str k ++ ":"%char :: " "%char :: encode (S level) x
     ++ more_pairs level kxs ++ newline_indent level ++ "}"%char :: after)
  = Return ((k, x) :: kxs, after).
Proof.
  induction kxs as [|[k' y] kys IH]; intros k x n after HF Hn;
    (destruct n as [|n]; [simpl in Hn; lia|]);
    inversion HF as [|? ? Hx HF']; subst; simpl in Hx.
  - rewrite parse_object_pairs_step; [|done|apply value_end_newline_indent].
    cbn [more_pairs app]. by rewrite skip_ws_closing.
  - rewrite parse_object_pairs_step; [|done|by left].
    cbn [more_pairs]. rewrite <- !app_comm_cons, skip_ws_stop by done.
    replace (ascii_eqb "," "}") with false by done.
    replace (ascii_eqb "," ",") with true by done.
    rewrite <- !app_assoc, skip_ws_newline_indent.
    change (encode_str k' ++ ?l) with (QUOTE :: tail (encode_str k' ++ l)) at 1.
    rewrite skip_ws_stop by done.
    change (QUOTE :: tail (encode_str k' ++ ?l)) with (encode_str k' ++ l).
    rewrite <- !app_comm_cons, <- ?app_assoc.
    fold (more_pairs level). rewrite IH; [done|done|simpl in *; lia].
Qed.

Lemma scan_once_array depth l :
  scan_once (S depth) ("["%char :: l) =
  match skip_while is_json_ws l with
  | d :: r =>
      if ascii_eqb d "]" then Return (PList [], r)
      else
        let* (items, r') := parse_array_items (scan_once depth) (length l) (d :: r) in
        Return (PList items, r')
  | [] => Raise JSONDecodeError
  end.
Proof. reflexivity. Qed.

Lemma scan_once_object depth l :
  scan_once (S depth) ("{"%char :: l) =
  match skip_while is_json_ws l with
  | d :: r =>
      if ascii_eqb d "}" then Return (PDict [], r)
      else
        let* (pairs, r') := parse_object_pairs (scan_once depth) (length l) (d :: r) in
        Return (PDict (dict_of_pairs pairs), r')
  | [] => Raise JSONDecodeError
  end.
Proof. reflexivity. Qed.

Lemma length_more_items level xs : length xs <= length (more_items level xs).
Proof.
  induction xs as [|x xs IH]; [done|].
  cbn [more_items length]. rewrite !length_app. fold (more_items level). lia.
Qed.

Lemma length_more_pairs level kxs : length kxs <= length (more_pairs level kxs).
Proof.
  induction kxs as [|[k x] kxs IH]; [done|].
  cbn [more_pairs length]. rewrite !length_app. cbn [length].
  rewrite !length_app. fold (more_pairs level). lia.
Qed.

Lemma dict_set_fresh {V} (d : list (string * V)) k v :
  k ∉ map fst d -> dict_set d k v = d ++ [(k, v)].
Proof.
  induction d as [|[k' v'] d IH]; [done|]. simpl. intros Hk.
  apply not_elem_of_cons in Hk as [Hne Hk].
  destruct (String.eqb_spec k' k) as [->|_]; [done|]. by rewrite IH.
Qed.

Lemma dict_of_pairs_acc {V} (kvs : list (string * V)) : forall acc,
  NoDup (map fst (acc ++ kvs)) ->
  fold_left (fun d kv => dict_set d (fst kv) (snd kv)) kvs acc = acc ++ kvs.
Proof.
  induction kvs as [|[k v] kvs IH]; intros acc Hnd; simpl.
  - by rewrite app_nil_r.
  - rewrite dict_set_fresh.
    + rewrite IH; rewrite <- app_assoc; done.
    + rewrite map_app in Hnd. apply NoDup_app in Hnd as (_ & Hd & _).
      intros Hin. apply (Hd k Hin). simpl. apply list_elem_of_here.
Qed.

Lemma dict_of_pairs_nodup {V} (kvs : list (string * V)) :
  NoDup (map fst kvs) -> dict_of_pairs kvs = kvs.
Proof. intros H. unfold dict_of_pairs. by rewrite dict_of_pairs_acc. Qed.

(** An array whose items are read back one level down is read back. *)
Lemma scan_once_list depth level xs :
  Forall (reads_back (scan_once depth) (S level)) xs ->
  reads_back (scan_once (S depth)) level (PList xs).
Proof.
  intros HF after _. destruct xs as [|x xs]; [reflexivity|].
  rewrite encode_list. rewrite <- app_comm_cons, scan_once_array.
  rewrite <- !app_assoc. cbn [app].
  rewrite skip_ws_newline_indent, skip_ws_encode.
  destruct (encode_head (S level) x) as (c & t & E & _ & Hc & _).
  rewrite E at 1. rewrite <- app_comm_cons, Hc. rewrite app_comm_cons, <- E.
  rewrite parse_array_items_reads; [done|done|].
  rewrite !length_app. pose proof (length_more_items level xs).
  unfold newline_indent. simpl. lia.
Qed.

(** An object with distinct keys whose values are read back one level down
    is read back. *)
Lemma scan_once_dict depth level kxs :
  NoDup (map fst kxs) ->
  Forall (fun kv => reads_back (scan_once depth) (S level) (snd kv)) kxs ->
  reads_back (scan_once (S depth)) level (PDict kxs).
Proof.
  intros Hnd HF after _. destruct kxs as [|[k x] kxs]; [reflexivity|].
  rewrite encode_dict. rewrite <- app_comm_cons, scan_once_object.
  rewrite <- !app_assoc. cbn [app]. rewrite <- !app_assoc. cbn [app].
  rewrite skip_ws_newline_indent.
  change (encode_str k ++ ?l) with (QUOTE :: tail (encode_str k ++ l)) at 1.
  rewrite skip_ws_stop by done.
  replace (ascii_eqb QUOTE "}") with false by done.
  change (QUOTE :: tail (encode_str k ++ ?l)) with (encode_str k ++ l).
  rewrite parse_object_pairs_reads; [|done|].
  - cbn [obind]. by rewrite dict_of_pairs_nodup.
  - rewrite !length_app. cbn [length]. rewrite !length_app.
    pose proof (length_more_pairs level kxs). unfold newline_indent. simpl. lia.
Qed.

(** ** Every value is read back *)

Lemma depth_list n l : depth (PList l) <= S n -> Forall (fun x => depth x <= n) l.
Proof.
  simpl. intros H. apply le_S_n in H.
  induction l as [|x l IH]; constructor; [lia|apply IH; lia].
Qed.

Lemma depth_dict n d :
  depth (PDict d) <= S n -> Forall (fun kv => depth (snd kv) <= n) d.
Proof.
  simpl. intros H. apply le_S_n in H.
  induction d as [|[k x] d IH]; constructor; [simpl; lia|apply IH; lia].
Qed.

Lemma well_formed_list l : well_formed (PList l) -> Forall well_formed l.
Proof.
  simpl. induction l as [|x l IH]; [constructor|].
  intros [Hx Hl]. constructor; auto.
Qed.

Lemma well_formed_dict d :
  well_formed (PDict d) ->
  NoDup (map fst d) /\ Forall (fun kv => well_formed (snd kv)) d.
Proof.
  simpl. intros [Hnd H]. split; [done|]. clear Hnd.
  induction d as [|[k x] d IH]; [constructor|].
  destruct H as [Hx Hd]. constructor; auto.
Qed.

Lemma reads_back_depth n : forall v level,
  depth v <= n -> well_formed v -> reads_back (scan_once n) level v.
Proof.
  induction n as [|n IH]; intros v level Hd Hwf;
    destruct v as [|b|z|s|l|d];
    auto using scan_once_none, scan_once_bool, scan_once_int, scan_once_str;
    try (simpl in Hd; lia).
  - apply scan_once_list.
    pose proof (depth_list _ _ Hd) as Hdl. pose proof (well_formed_list _ Hwf) as Hwl.
    clear Hd Hwf. induction l as [|x l IHl]; [constructor|].
    inversion Hdl; inversion Hwl; subst. constructor; auto.
  - destruct (well_formed_dict _ Hwf) as [Hnd Hwd].
    apply scan_once_dict; [done|].
    pose proof (depth_dict _ _ Hd) as Hdd.
    clear Hd Hwf Hnd. induction d as [|kv d IHd]; [constructor|].
    inversion Hdd; inversion Hwd; subst. constructor; auto.
Qed.

Lemma length_more_items_depth level l :
  Forall (fun x => depth x <= length (encode (S level) x)) l ->
  forall x, x ∈ l -> depth x <= length (more_items level l).
Proof.
  induction 1 as [|y l Hy _ IH]; intros x Hx; [by apply elem_of_nil in Hx|].
  cbn [more_items length]. rewrite !length_app. fold (more_items level).
  apply elem_of_cons in Hx as [->|Hx]; [lia|]. specialize (IH x Hx). lia.
Qed.

Lemma length_more_pairs_depth level d :
  Forall (fun kv => depth (snd kv) <= length (encode (S level) (snd kv))) d ->
  forall kv, kv ∈ d -> depth (snd kv) <= length (more_pairs level d).
Proof.
  induction 1 as [|[k y] d Hy _ IH]; intros kv Hkv; [by apply elem_of_nil in Hkv|].
  cbn [more_pairs length]. rewrite !length_app. cbn [length]. rewrite !length_app.
  fold (more_pairs level). simpl in Hy.
  apply elem_of_cons in Hkv as [->|Hkv]; [simpl; lia|]. specialize (IH kv Hkv). lia.
Qed.

Lemma depth_list_bound (l : list pyval) m :
  (forall x, x ∈ l -> depth x <= m) -> depth (PList l) <= S m.
Proof.
  intros H. simpl. apply le_n_S.
  induction l as [|x l IH]; [lia|].
  apply Nat.max_lub; [apply H, list_elem_of_here|].
  apply IH. intros y Hy. apply H. by apply list_elem_of_further.
Qed.

Lemma depth_dict_bound (d : list (string * pyval)) m :
  (forall kv, kv ∈ d -> depth (snd kv) <= m) -> depth (PDict d) <= S m.
Proof.
  intros H. simpl. apply le_n_S.
  induction d as [|[k x] d IH]; [lia|].
  apply Nat.max_lub; [apply (H (k, x)), list_elem_of_here|].
  apply IH. intros y Hy. apply H. by apply list_elem_of_further.
Qed.

(** The text of a value is at least as long as the value is deep, so the
    depth [json_loads] allows is enough. *)
Lemma depth_le_length n : forall v level,
  depth v <= n -> depth v <= length (encode level v).
Proof.
  induction n as [|n IH]; intros v level Hd;
    destruct v as [|b|z|s|l|d]; try (simpl; lia); try (simpl in Hd; lia).
  - destruct l as [|x l]; [simpl; lia|].
    pose proof (depth_list _ _ Hd) as Hdl.
    assert (HF : Forall (fun y => depth y <= length (encode (S level) y)) (x :: l)).
    { eapply Forall_impl; [exact Hdl|]. intros y Hy. by apply IH. }
    rewrite encode_list. cbn [length]. rewrite !length_app.
    apply depth_list_bound. intros y Hy.
    apply elem_of_cons in Hy as [->|Hy].
    + inversion HF; subst. lia.
    + inversion HF; subst. pose proof (length_more_items_depth level l H2 y Hy). lia.
  - destruct d as [|[k x] d]; [simpl; lia|].
    pose proof (depth_dict _ _ Hd) as Hdd.
    assert (HF : Forall (fun kv => depth (snd kv) <= length (encode (S level) (snd kv)))
                   ((k, x) :: d)).
    { eapply Forall_impl; [exact Hdd|]. intros y Hy. by apply IH. }
    rewrite encode_dict. cbn [length]. rewrite !length_app. cbn [length].
    rewrite !length_app.
    apply depth_dict_bound. intros y Hy.
    apply elem_of_cons in Hy as [->|Hy].
    + inversion HF; subst. simpl in *. lia.
    + inversion HF; subst. pose proof (length_more_pairs_depth level d H2 y Hy). lia.
Qed.

(** [json.loads(json.dumps(v, indent=2)) == v] *)
Theorem json_loads_dumps v :
  well_formed v -> json_loads (json_dumps v) = Return v.
Proof.
  intros Hwf. unfold json_loads, json_dumps.
  rewrite list_ascii_of_string_of_list_ascii.
  rewrite <- (app_nil_r (encode 0 v)) at 2. rewrite skip_ws_encode.
  rewrite (reads_back_depth (length (encode 0 v)) v 0); [reflexivity| |done|exact I].
  by apply (depth_le_length (depth v)).
Qed.

(** ** The JSON file of a collection *)

Lemma from_dict_to_dict b : from_dict (PDict (to_dict b)) = Return b.
Proof. by destruct b. Qed.

Lemma comprehension_from_dict bs :
  comprehension from_dict (map (fun b => PDict (to_dict b)) bs) = Return bs.
Proof.
  induction bs as [|b bs IH]; [done|].
  simpl map. cbn [comprehension]. rewrite from_dict_to_dict. cbn [obind].
  by rewrite IH.
Qed.

Lemma well_formed_record b : is_record b = true -> well_formed (PDict (to_dict b)).
Proof.
  destruct b as [t a g y]. unfold is_record. simpl.
  destruct t; try discriminate. destruct a; try discriminate.
  destruct g; try discriminate. destruct y; try discriminate. intros _.
  split; [|done]. by apply (bool_decide_unpack _).
Qed.

Lemma well_formed_records bs :
  forallb is_record bs = true ->
  well_formed (PList (map (fun b => PDict (to_dict b)) bs)).
Proof.
  induction bs as [|b bs IH]; [done|].
  simpl forallb. intros [Hb Hbs]%andb_prop.
  simpl map. split; [by apply well_formed_record|by apply IH].
Qed.

(** What [_save_to_json] writes for a collection of records,
    [_load_from_json] reads back as the same collection. *)
Lemma books_of_json_books_json bs :
  forallb is_record bs = true -> books_of_json (books_json bs) = Return bs.
Proof.
  intros Hbs. unfold books_of_json, books_json.
  rewrite json_loads_dumps by by apply well_formed_records.
  cbn [obind iterate]. apply comprehension_from_dict.
Qed.

(** ** The CSV reader in one pass *)

Lemma feed_app r l1 l2 :
  feed r (l1 ++ l2) = let* r' := feed r l1 in feed r' l2.
Proof.
  revert r. induction l1 as [|c l1 IH]; intros r; [done|].
  simpl. destruct (parse_process_char r (Some c)); simpl; auto.
Qed.

Lemma obind_assoc {A B C} (x : outcome A) (f : A -> outcome B) (g : B -> outcome C) :
  obind (obind x f) g = obind x (fun a => obind (f a) g).
Proof. by destruct x. Qed.

(** Reading the lines of a text is reading the text in one pass. *)
Lemma read_records_scan text : forall r cur,
  read_records r (file_lines_from cur text) =
  let* r' := feed r cur in
  scan_text r' (negb (bool_decide (cur = []))) text.
Proof.
  induction text as [|c t IH]; intros r cur.
  - destruct cur as [|a cur]; [reflexivity|].
    cbn [file_lines_from read_records].
    rewrite (bool_decide_eq_false_2 (a :: cur = [])) by done.
    destruct (feed r (a :: cur)) as [r1| |]; reflexivity.
  - cbn [file_lines_from]. destruct (line_ends c t) eqn:Hle.
    + cbn [read_records]. rewrite feed_app, obind_assoc.
      destruct (feed r cur) as [r'| |]; try reflexivity. cbn [obind feed scan_text].
      destruct (parse_process_char r' (Some c)) as [r1| |]; try reflexivity.
      cbn [obind]. rewrite Hle.
      destruct (parse_process_char r1 None) as [r2| |]; try reflexivity.
      cbn [obind]. rewrite !IH. cbn [feed obind].
      by rewrite (bool_decide_eq_true_2 (@nil ascii = [])).
    + rewrite IH, feed_app, obind_assoc.
      destruct (feed r cur) as [r'| |]; try reflexivity. cbn [obind feed scan_text].
      destruct (parse_process_char r' (Some c)) as [r1| |]; try reflexivity.
      cbn [obind]. rewrite Hle.
      rewrite bool_decide_eq_false_2; [done|]. by destruct cur.
Qed.

Lemma csv_reader_scan text :
  csv_reader text = scan_text parse_reset false (list_ascii_of_string text).
Proof. unfold csv_reader, file_lines. by rewrite read_records_scan. Qed.

(** ** The reader reads back what the writer wrote *)

Lemma special_false c :
  special c = false ->
  ascii_eqb c "," = false /\ ascii_eqb c QUOTE = false /\ is_newline c = false.
Proof.
  unfold special, is_newline. intros H.
  repeat (apply orb_false_iff in H as [H ?]). repeat split; try done.
  apply orb_false_iff. by split.
Qed.

Lemma line_ends_not_newline c next : is_newline c = false -> line_ends c next = false.
Proof.
  unfold is_newline, line_ends. intros H. apply orb_false_iff in H as [-> ->]. done.
Qed.

Lemma comma_closes r :
  ends_field (state r) ->
  parse_process_char r (Some ","%char) = Return (next_field r []).
Proof.
  destruct r as [st f fs]. unfold next_field. simpl. rewrite app_nil_r.
  by intros [-> | [-> | ->]].
Qed.

Lemma cr_closes r :
  ends_field (state r) ->
  parse_process_char r (Some CR) =
  Return {| state := EAT_CRNL; field := [];
            fields := fields r ++ [string_of_list_ascii (field r)] |}.
Proof. destruct r as [st f fs]. simpl. by intros [-> | [-> | ->]]. Qed.

(** The line terminator after a field closes the record. *)
Lemma scan_text_crlf r m rest :
  ends_field (state r) ->
  scan_text r m (CR :: LF :: rest) =
  let* records := scan_text parse_reset false rest in
  Return ((fields r ++ [string_of_list_ascii (field r)]) :: records).
Proof.
  intros Hr. cbn [scan_text]. rewrite cr_closes by done. reflexivity.
Qed.

Lemma scan_text_comma r m rest :
  ends_field (state r) ->
  scan_text r m (","%char :: rest) = scan_text (next_field r []) true rest.
Proof.
  intros Hr. cbn [scan_text]. rewrite comma_closes by done. reflexivity.
Qed.

(** Inside quotes: the characters of the field, quotes doubled, up to the
    closing quote.  Line ends inside the field are part of it. *)
Lemma scan_text_quoted f : forall r m rest,
  state r = IN_QUOTED_FIELD ->
  scan_text r m (double_quotes f ++ QUOTE :: rest) =
  scan_text (with_field r QUOTE_IN_QUOTED_FIELD f) true rest.
Proof.
  induction f as [|c f IH]; intros [st fl fs] m rest Hst; simpl in Hst; subst st.
  - unfold with_field. simpl. by rewrite app_nil_r.
  - cbn [double_quotes]. destruct (ascii_eqb c QUOTE) eqn:Hq.
    + apply Ascii.eqb_eq in Hq as ->.
      rewrite <- !app_comm_cons. cbn [scan_text].
      change (parse_process_char (mkReader IN_QUOTED_FIELD fl fs) (Some QUOTE))
        with (Return (mkReader QUOTE_IN_QUOTED_FIELD fl fs)).
      cbn [obind]. change (line_ends QUOTE ?l) with false. cbn iota.
      change (parse_process_char (mkReader QUOTE_IN_QUOTED_FIELD fl fs) (Some QUOTE))
        with (Return (mkReader IN_QUOTED_FIELD (fl ++ [QUOTE]) fs)).
      cbn [obind]. rewrite IH by done.
      unfold with_field. simpl. by rewrite <- app_assoc.
    + rewrite <- app_comm_cons. cbn [scan_text].
      assert (parse_process_char (mkReader IN_QUOTED_FIELD fl fs) (Some c)
              = Return (mkReader IN_QUOTED_FIELD (fl ++ [c]) fs)) as ->.
      { unfold parse_process_char. simpl. by rewrite Hq. }
      cbn [obind].
      destruct (line_ends c (double_quotes f ++ QUOTE :: rest)).
      * change (parse_process_char (mkReader IN_QUOTED_FIELD (fl ++ [c]) fs) None)
          with (Return (mkReader IN_QUOTED_FIELD (fl ++ [c]) fs)).
        cbn [obind state]. rewrite bool_decide_eq_false_2 by done.
        rewrite IH by done. unfold with_field. simpl. by rewrite <- app_assoc.
      * rewrite IH by done. unfold with_field. simpl. by rewrite <- app_assoc.
Qed.

(** Outside quotes: the characters of a field that needs no quoting. *)
Lemma scan_text_in_field f : forall r m rest,
  state r = IN_FIELD -> quoted f = false ->
  exists m', scan_text r m (f ++ rest) = scan_text (with_field r IN_FIELD f) m' rest.
Proof.
  induction f as [|c f IH]; intros [st fl fs] m rest Hst Hf; simpl in Hst; subst st.
  - exists m. unfold with_field. simpl. by rewrite app_nil_r.
  - unfold quoted in Hf. simpl in Hf. apply orb_false_iff in Hf as [Hc Hf].
    destruct (special_false c Hc) as (Hcomma & Hq & Hnl).
    rewrite <- app_comm_cons. cbn [scan_text].
    assert (parse_process_char (mkReader IN_FIELD fl fs) (Some c)
            = Return (mkReader IN_FIELD (fl ++ [c]) fs)) as ->.
    { unfold parse_process_char. simpl. by rewrite Hnl, Hcomma. }
    cbn [obind]. rewrite line_ends_not_newline by done.
    destruct (IH (mkReader IN_FIELD (fl ++ [c]) fs) true rest) as [m' ->]; [done..|].
    exists m'. unfold with_field. simpl. by rewrite <- app_assoc.
Qed.

(** One field as the writer joins it, read from the start of a field. *)
Lemma scan_text_field f r m rest :
  state r = START_FIELD -> field r = [] ->
  exists st m',
    ends_field st
    /\ scan_text r m (join_field f ++ rest) = scan_text (with_field r st f) m' rest.
Proof.
  destruct r as [st fl fs]. simpl. intros -> ->. unfold join_field.
  destruct (quoted f) eqn:Hf.
  - exists QUOTE_IN_QUOTED_FIELD, true. split; [by right; right|].
    rewrite <- app_comm_cons, <- app_assoc. cbn [app scan_text].
    change (parse_process_char (mkReader START_FIELD [] fs) (Some QUOTE))
      with (Return (mkReader IN_QUOTED_FIELD [] fs)).
    cbn [obind]. change (line_ends QUOTE ?l) with false. cbn iota.
    by rewrite scan_text_quoted.
  - destruct f as [|c f].
    + exists START_FIELD, m. split; [by left|]. reflexivity.
    + pose proof Hf as Hf'. unfold quoted in Hf. simpl in Hf.
      apply orb_false_iff in Hf as [Hc Hf].
      destruct (special_false c Hc) as (Hcomma & Hq & Hnl).
      rewrite <- app_comm_cons. cbn [scan_text].
      assert (parse_process_char (mkReader START_FIELD [] fs) (Some c)
              = Return (mkReader IN_FIELD [c] fs)) as ->.
      { unfold parse_process_char. simpl. by rewrite Hnl, Hq, Hcomma. }
      cbn [obind]. rewrite line_ends_not_newline by done.
      destruct (scan_text_in_field f (mkReader IN_FIELD [c] fs) true rest)
        as [m' ->]; [done..|].
      exists IN_FIELD, m'. split; [by right; left|]. reflexivity.
Qed.

(** The fields of a record and the line terminator, read from the start
    of a field. *)
Lemma scan_text_fields fs : forall r m rest,
  fs <> [] -> state r = START_FIELD -> field r = [] ->
  scan_text r m (join_fields fs ++ CR :: LF :: rest) =
  let* records := scan_text parse_reset false rest in
  Return ((fields r ++ map string_of_list_ascii fs) :: records).
Proof.
  induction fs as [|f fs IH]; intros r m rest Hne Hst Hfl; [done|].
  destruct fs as [|g fs].
  - cbn [join_fields].
    destruct (scan_text_field f r m (CR :: LF :: rest)) as (st & m' & Hend & ->); [done..|].
    rewrite scan_text_crlf by done. unfold with_field. simpl. by rewrite Hfl.
  - change (join_fields (f :: g :: fs)) with (join_field f ++ ","%char :: join_fields (g :: fs)).
    rewrite <- app_assoc, <- app_comm_cons.
    destruct (scan_text_field f r m (","%char :: join_fields (g :: fs) ++ CR :: LF :: rest))
      as (st & m' & Hend & ->); [done..|].
    rewrite scan_text_comma by done. rewrite IH by done.
    unfold next_field, with_field. simpl. rewrite Hfl, app_nil_r. simpl.
    by rewrite <- app_assoc.
Qed.

Lemma start_record_as_field r c :
  state r = START_RECORD -> is_newline c = false ->
  parse_process_char r (Some c) = parse_process_char (set_state r START_FIELD) (Some c).
Proof.
  destruct r as [st fl fs]. simpl. intros -> Hc.
  unfold parse_process_char. simpl. by rewrite Hc.
Qed.

Lemma join_field_head f rest :
  exists c t, join_field f ++ ","%char :: rest = c :: t /\ is_newline c = false.
Proof.
  unfold join_field. destruct (quoted f) eqn:Hf.
  - eexists _, _. by split.
  - destruct f as [|c f]; [eexists _, _; by split|].
    unfold quoted in Hf. simpl in Hf. apply orb_false_iff in Hf as [Hc _].
    destruct (special_false c Hc) as (_ & _ & Hnl). eexists _, _. by split.
Qed.

(** A record of two fields or more, read from the start of a record. *)
Lemma scan_text_record f g fs rest :
  scan_text parse_reset false (join_fields (f :: g :: fs) ++ CR :: LF :: rest) =
  let* records := scan_text parse_reset false rest in
  Return (map string_of_list_ascii (f :: g :: fs) :: records).
Proof.
  pose proof (scan_text_fields (f :: g :: fs) (set_state parse_reset START_FIELD)
                false rest) as H.
  cbn [fields set_state parse_reset app] in H. rewrite <- H by done. clear H.
  change (join_fields (f :: g :: fs)) with (join_field f ++ ","%char :: join_fields (g :: fs)).
  rewrite <- app_assoc, <- app_comm_cons.
  destruct (join_field_head f (join_fields (g :: fs) ++ CR :: LF :: rest))
    as (c & t & -> & Hc).
  cbn [scan_text]. by rewrite start_record_as_field.
Qed.

(** ** The reader raises nothing on the lines of a file

    The only error of the dialect is a character other than a line end
    after a line end outside quotes, and a line of a file stops there. *)







(** ** The CSV file of a collection *)

Lemma string_of_list_ascii_app l1 l2 :
  string_of_list_ascii (l1 ++ l2) = (string_of_list_ascii l1 +:+ string_of_list_ascii l2)%string.
Proof. induction l1 as [|c l1 IH]; [done|]. simpl. by rewrite IH. Qed.

Lemma string_app_assoc (a b c : string) : ((a +:+ b) +:+ c = a +:+ (b +:+ c))%string.
Proof.
  induction a as [|x a IH]; [done|].
  change (String x ((a +:+ b) +:+ c) = String x (a +:+ (b +:+ c)))%string.
  by rewrite IH.
Qed.

Lemma csv_writerow_many a b l :
  csv_writerow (a :: b :: l) = join_fields (map list_ascii_of_string (a :: b :: l)) ++ [CR; LF].
Proof. by destruct a. Qed.

Lemma writerow_record b :
  is_record b = true ->
  DictWriter_writerow fieldnames (to_dict b) = Return (record_line b).
Proof.
  destruct b as [t a g y]. unfold is_record. simpl.
  destruct t; try discriminate. destruct a; try discriminate.
  destruct g; try discriminate. destruct y; try discriminate. intros _.
  reflexivity.
Qed.

Lemma write_rows_run path bs : forall st cur,
  forallb is_record bs = true ->
  files st !! path = Some cur ->
  write_rows path bs st =
  (Return tt,
   {| self := self st;
      files := <[path := (cur +:+ string_of_list_ascii (concat (map record_line bs)))%string]>
                 (files st);
      dialogs := dialogs st |}).
Proof.
  induction bs as [|b bs IH]; intros [lib fs ds] cur Hbs Hcur; simpl in *.
  - unfold mret, M_ret. do 2 f_equal.
    assert (cur +:+ "" = cur)%string as ->.
    { clear. induction cur as [|x cur IH]; [done|].
      change (String x (cur +:+ "") = String x cur)%string. by rewrite IH. }
    by rewrite insert_id.
  - apply andb_prop in Hbs as [Hb Hbs].
    unfold mbind, M_bind, lift, write. rewrite writerow_record by done.
    cbn [self files dialogs]. rewrite Hcur. cbn [default].
    erewrite IH; [|done|apply lookup_insert_eq].
    cbn [self files dialogs]. rewrite insert_insert_eq.
    by rewrite string_of_list_ascii_app, string_app_assoc.
Qed.

Lemma _save_to_csv_run st :
  forallb is_record (books (self st)) = true ->
  _save_to_csv st = (Return true, saved_csv st).
Proof.
  destruct st as [[bs jf cf] fs ds]. cbn [self books]. intros Hbs.
  unfold _save_to_csv, try_except, write_csv, open_w, write, get_self, lift.
  unfold mbind, M_bind, mret, M_ret, saved_csv, books_csv.
  cbn [self files dialogs books csv_filename fst snd].
  change (DictWriter_writeheader fieldnames) with (Return (csv_writerow fieldnames)).
  cbn iota beta. rewrite lookup_insert_eq. cbn [default].
  erewrite write_rows_run; [|done|apply lookup_insert_eq].
  cbn [self files dialogs]. rewrite !insert_insert_eq.
  by rewrite string_of_list_ascii_app.
Qed.

Lemma record_line_fields b :
  record_line b = join_fields (map list_ascii_of_string (record_fields b)) ++ [CR; LF].
Proof. unfold record_line, record_fields. simpl map at 2. apply csv_writerow_many. Qed.

Lemma scan_text_record_lines bs :
  scan_text parse_reset false (concat (map record_line bs))
  = Return (map record_fields bs).
Proof.
  induction bs as [|b bs IH]; [reflexivity|].
  simpl map. simpl concat. rewrite record_line_fields, <- app_assoc. cbn [app].
  unfold record_fields at 1. simpl map at 1.
  rewrite scan_text_record, IH. cbn [obind]. do 2 f_equal.
  cbn [map]. by rewrite !string_of_list_ascii_of_string.
Qed.

Lemma csv_reader_books_csv bs :
  csv_reader (books_csv bs) = Return (fieldnames :: map record_fields bs).
Proof.
  rewrite csv_reader_scan. unfold books_csv.
  rewrite list_ascii_of_string_of_list_ascii.
  change (csv_writerow fieldnames)
    with (join_fields (map list_ascii_of_string fieldnames) ++ [CR; LF]).
  rewrite <- app_assoc. cbn [app]. unfold fieldnames at 1. simpl map at 1.
  rewrite scan_text_record, scan_text_record_lines. reflexivity.
Qed.

Lemma book_of_row_record b :
  is_record b = true ->
  book_of_row (row_dict fieldnames (record_fields b)) = Return b.
Proof.
  destruct b as [t a g y]. unfold is_record. simpl.
  destruct t; try discriminate. destruct a; try discriminate.
  destruct g; try discriminate. destruct y; try discriminate. intros _.
  unfold record_fields, book_of_row. cbn -[int_of_str str_of_int].
  by rewrite int_of_str_of_int.
Qed.

Lemma filter_record_fields bs :
  filter (fun row : list string => row <> []) (map record_fields bs) = map record_fields bs.
Proof.
  induction bs as [|b bs IH]; [done|]. simpl.
  rewrite filter_cons_True by done. by rewrite IH.
Qed.

(** What [_save_to_csv] writes for a collection of records,
    [_load_from_csv] reads back as the same collection. *)
Lemma books_of_csv_books_csv bs :
  forallb is_record bs = true -> books_of_csv (books_csv bs) = Return bs.
Proof.
  intros Hbs. unfold books_of_csv, DictReader. rewrite csv_reader_books_csv.
  cbn [obind]. rewrite filter_record_fields.
  induction bs as [|b bs IH]; [done|].
  simpl in Hbs. apply andb_prop in Hbs as [Hb Hbs].
  simpl map. cbn [comprehension]. rewrite book_of_row_record by done.
  cbn [obind]. by rewrite IH.
Qed.

(** ** Round trip *)

Lemma _load_from_json_run st text :
  files st !! json_filename (self st) = Some text ->
  _load_from_json st =
  match books_of_json text with
  | Return bs => (Return true, with_books st bs)
  | Raise e => (Raise (Exception "JSON load error: " e), st)
  | OutOfModel => (OutOfModel, st)
  end.
Proof.
  intros Hf.
  unfold _load_from_json, try_except, read_file, lift, set_books, get_self, raise.
  unfold mbind, M_bind. cbn [self]. rewrite Hf. by destruct (books_of_json text).
Qed.

Lemma _load_from_csv_run st text :
  files st !! csv_filename (self st) = Some text ->
  _load_from_csv st =
  match books_of_csv text with
  | Return bs => (Return true, with_books st bs)
  | Raise e => (Raise (Exception "CSV load error: " e), st)
  | OutOfModel => (OutOfModel, st)
  end.
Proof.
  intros Hf.
  unfold _load_from_csv, try_except, read_file, lift, set_books, get_self, raise.
  unfold mbind, M_bind. cbn [self]. rewrite Hf. by destruct (books_of_csv text).
Qed.



(** The round trip through the constructor: after [save_library] in the
    JSON format, a new store holds the records of the old one. *)
Lemma save_then_construct fs ds bs :
  forallb is_record bs = true ->
  Library_init (files (snd (save_library "json" (store bs fs)))) ds
  = (Return tt,
     {| self := mkLibrary bs "library_data.json" "library_data.csv";
        files := <["library_data.json"%string := books_json bs]> fs; dialogs := ds |}).
Proof.
  intros Hbs. rewrite save_library_json, Library_init_run.
  cbn [snd files saved store self json_filename books]. rewrite lookup_insert_eq.
  by rewrite books_of_json_books_json.
Qed.

(** The CSV file is what a new store loads when there is no JSON file. *)
Lemma save_csv_then_construct fs ds bs :
  forallb is_record bs = true ->
  fs !! "library_data.json"%string = None ->
  Library_init (files (snd (save_library "csv" (store bs fs)))) ds
  = (Return tt,
     {| self := mkLibrary bs "library_data.json" "library_data.csv";
        files := <["library_data.csv"%string := books_csv bs]> fs; dialogs := ds |}).
Proof.
  intros Hbs Hj.
  assert (save_library "csv" (store bs fs) = (Return true, saved_csv (store bs fs))) as ->.
  { unfold save_library, try_except. simpl (String.eqb _ _).
    by rewrite _save_to_csv_run. }
  rewrite Library_init_run.
  cbn [snd files saved_csv store self csv_filename books].
  rewrite lookup_insert_ne by done. rewrite Hj, lookup_insert_eq.
  by rewrite books_of_csv_books_csv.
Qed.

(** ** Export and import *)

Lemma export_library_json_run st filename :
  export_library filename "json" st =
  (Return true,
   {| self := self st;
      files := <[filename := books_json (books (self st))]> (files st);
      dialogs := dialogs st |}).
Proof.
  destruct st as [[bs jf cf] fs ds].
  unfold export_library, try_except. simpl (String.eqb _ _). cbn iota.
  unfold dump_books, open_w, write, get_self, mbind, M_bind, mret, M_ret, books_json.
  cbn [self files dialogs books]. by rewrite write_after_open.
Qed.

Lemma export_library_csv_run st filename :
  forallb is_record (books (self st)) = true ->
  export_library filename "csv" st =
  (Return true,
   {| self := self st;
      files := <[filename := books_csv (books (self st))]> (files st);
      dialogs := dialogs st |}).
Proof.
  destruct st as [[bs jf cf] fs ds]. cbn [self books]. intros Hbs.
  unfold export_library, try_except. simpl (String.eqb _ _). cbn iota.
  unfold write_csv, open_w, write, get_self, lift.
  unfold mbind, M_bind, mret, M_ret, books_csv.
  cbn [self files dialogs books fst snd].
  change (DictWriter_writeheader fieldnames) with (Return (csv_writerow fieldnames)).
  cbn iota beta. rewrite lookup_insert_eq. cbn [default].
  erewrite write_rows_run; [|done|apply lookup_insert_eq].
  cbn [self files dialogs]. rewrite !insert_insert_eq.
  by rewrite string_of_list_ascii_app.
Qed.


(** * Further properties of the store *)

(** ** JSON keeps every value *)




(** ** Loading *)

Lemma load_library_run st :
  load_library st =
  match files st !! json_filename (self st) with
  | Some text => load_with "JSON load error: " (books_of_json text) st
  | None =>
      match files st !! csv_filename (self st) with
      | Some text => load_with "CSV load error: " (books_of_csv text) st
      | None => (Return false, st)
      end
  end.
Proof.
  unfold load_library, load_with.
  unfold try_except at 1. unfold path_exists, get_self.
  unfold mbind at 1 2 3, M_bind.
  destruct (files st !! json_filename (self st)) as [text|] eqn:Hj.
  - rewrite bool_decide_eq_true_2 by eauto.
    rewrite (_load_from_json_run st text Hj).
    by destruct (books_of_json text).
  - rewrite bool_decide_eq_false_2 by (apply is_Some_None).
    unfold mbind, M_bind.
    destruct (files st !! csv_filename (self st)) as [text|] eqn:Hc.
    + rewrite bool_decide_eq_true_2 by eauto.
      rewrite (_load_from_csv_run st text Hc).
      by destruct (books_of_csv text).
    + by rewrite bool_decide_eq_false_2 by (apply is_Some_None).
Qed.

(** X2.  [load_library] loads all of a file or nothing.  It never raises
    and never writes a file.  When it returns [True] the collection is the
    whole list read from the file and no dialog is shown; when it returns
    [False] the store object is exactly as before, so a file that fails
    part way leaves no partial collection, and a JSON file that fails is
    not replaced by the CSV file. *)
Theorem load_library_all_or_nothing st r st' :
  load_library st = (r, st') ->
  files st' = files st
  /\ json_filename (self st') = json_filename (self st)
  /\ csv_filename (self st') = csv_filename (self st)
  /\ match r with
     | Return true =>
         dialogs st' = dialogs st
         /\ exists text,
             (files st !! json_filename (self st) = Some text
              /\ books_of_json text = Return (books (self st')))
             \/ (files st !! json_filename (self st) = None
                 /\ files st !! csv_filename (self st) = Some text
                 /\ books_of_csv text = Return (books (self st')))
     | Return false => self st' = self st
     | Raise _ => False
     | OutOfModel => st' = st
     end.
Proof.
  rewrite load_library_run. unfold load_with.
  destruct (files st !! json_filename (self st)) as [text|] eqn:Hj.
  - destruct (books_of_json text) as [bs| |] eqn:Hp; intros [= <- <-];
      repeat split; eauto.
  - destruct (files st !! csv_filename (self st)) as [text|] eqn:Hc.
    + destruct (books_of_csv text) as [bs| |] eqn:Hp; intros [= <- <-];
        repeat split; eauto 7.
    + intros [= <- <-]. repeat split.
Qed.

Lemma load_library_all_or_nothing_witness :
  files (notified broken_store broken_notice) = files broken_store
  /\ json_filename (self (notified broken_store broken_notice))
     = json_filename (self broken_store)
  /\ csv_filename (self (notified broken_store broken_notice))
     = csv_filename (self broken_store)
  /\ self (notified broken_store broken_notice) = self broken_store.
Proof.
  apply (load_library_all_or_nothing broken_store (Return false)
           (notified broken_store broken_notice)).
  vm_compute. reflexivity.
Defined.

(** ** Exporting *)

Lemma touches_only_refl path st : touches_only path st st.
Proof. by repeat split. Qed.

Lemma touches_only_trans path st1 st2 st3 :
  touches_only path st1 st2 -> touches_only path st2 st3 -> touches_only path st1 st3.
Proof.
  intros (Hs & Hd & Hf) (Hs' & Hd' & Hf'). repeat split; try congruence.
  intros p Hp. by rewrite Hf', Hf.
Qed.

Lemma write_touches path text st : touches_only path st (snd (write path text st)).
Proof.
  repeat split. intros p Hp. simpl. by rewrite lookup_insert_ne.
Qed.

Lemma open_w_touches path st : touches_only path st (snd (open_w path st)).
Proof.
  repeat split. intros p Hp. simpl. by rewrite lookup_insert_ne.
Qed.

Lemma field_text_no_raise v : ~ raises (field_text v).
Proof. destruct v as [|[]| | | |]; simpl; tauto. Qed.

Lemma comprehension_no_raise {A B} (f : A -> outcome B) l :
  (forall x, ~ raises (f x)) -> ~ raises (comprehension f l).
Proof.
  intros Hf. induction l as [|x l IH]; [simpl; tauto|].
  simpl. specialize (Hf x). destruct (f x); simpl in *; try tauto.
  destruct (comprehension f l); simpl in *; tauto.
Qed.

Lemma writerow_no_raise b : ~ raises (DictWriter_writerow fieldnames (to_dict b)).
Proof.
  destruct b as [t a g y]. unfold DictWriter_writerow.
  change (dict_to_list fieldnames (to_dict (mkBook t a g y))) with (Return [t; a; g; y]).
  cbn [obind].
  pose proof (comprehension_no_raise field_text [t; a; g; y] field_text_no_raise) as H.
  destruct (comprehension field_text [t; a; g; y]); simpl in *; tauto.
Qed.

Lemma write_rows_touches path bs : forall st r st',
  write_rows path bs st = (r, st') -> touches_only path st st' /\ ~ raises r.
Proof.
  induction bs as [|b bs IH]; intros st r st' H.
  - injection H as <- <-. split; [apply touches_only_refl|simpl; tauto].
  - cbn [write_rows] in H. unfold mbind, M_bind, lift in H.
    pose proof (writerow_no_raise b) as Hb.
    destruct (DictWriter_writerow fieldnames (to_dict b)) as [line| |];
      [|simpl in Hb; tauto|].
    + cbn [write] in H.
      match type of H with
      | write_rows _ _ ?st1 = _ => destruct (IH st1 r st' H) as [Ht Hr]
      end.
      split; [|done].
      eapply touches_only_trans; [|exact Ht].
      apply (write_touches path (string_of_list_ascii line) st).
    + injection H as <- <-. split; [apply touches_only_refl|simpl; tauto].
Qed.

Lemma export_library_run st filename format :
  export_library filename format st =
  if String.eqb format "json" then
    (Return true,
     {| self := self st;
        files := <[filename := books_json (books (self st))]> (files st);
        dialogs := dialogs st |})
  else if String.eqb format "csv" then
    match write_rows filename (books (self st))
            (snd (write filename (string_of_list_ascii (csv_writerow fieldnames))
                    (snd (open_w filename st)))) with
    | (Return _, st') => (Return true, st')
    | (Raise e, st') =>
        (Return false,
         notified st' (showerror "Error" "Failed to export library: " (Some e)))
    | (OutOfModel, st') => (OutOfModel, st')
    end
  else (Return false, st).
Proof.
  destruct (String.eqb format "json") eqn:Hj.
  - apply String.eqb_eq in Hj as ->. apply export_library_json_run.
  - unfold export_library, try_except. rewrite Hj.
    destruct (String.eqb format "csv"); [|done].
    unfold write_csv, get_self, lift, mbind, M_bind.
    change (DictWriter_writeheader fieldnames) with (Return (csv_writerow fieldnames)).
    cbn [open_w write fst snd self].
    match goal with
    | |- context [write_rows ?p ?bs ?s] => destruct (write_rows p bs s) as [[[]| |] st']
    end; reflexivity.
Qed.

Lemma export_library_touches st filename format r st' :
  export_library filename format st = (r, st') ->
  touches_only filename st st' /\ ~ raises r
  /\ (format <> "json"%string -> format <> "csv"%string -> r = Return false /\ st' = st).
Proof.
  rewrite export_library_run. destruct (String.eqb_spec format "json") as [->|Hj].
  - intros [= <- <-]. repeat split; try done; try (simpl; tauto).
    intros p Hp. simpl. by rewrite lookup_insert_ne.
  - destruct (String.eqb_spec format "csv") as [->|Hc].
    + match goal with
      | |- context [write_rows ?p ?bs ?s] =>
          destruct (write_rows p bs s) as [rr st1] eqn:Hw
      end.
      apply write_rows_touches in Hw as [Ht Hr].
      assert (touches_only filename st st1) as Ht'.
      { eapply touches_only_trans; [|exact Ht].
        eapply touches_only_trans; [apply open_w_touches|apply write_touches]. }
      destruct rr as [[]| |]; simpl in Hr; try tauto; intros [= <- <-];
        repeat split; try done; try (simpl; tauto); apply Ht'.
    + intros [= <- <-]. split; [apply touches_only_refl|]. split; [simpl; tauto|done].
Qed.





(** ** Values that are not strings *)

Lemma book_matches_outcome query b :
  match book_matches query b with
  | Return _ => has_str_title b = true
  | Raise e => e = AttributeError
  | OutOfModel => False
  end.
Proof.
  unfold book_matches, has_str_title, lower_of.
  destruct (title b); simpl; try done.
  destruct (contains _ _); [done|].
  destruct (author b); simpl; try done.
  destruct (contains _ _); [done|].
  by destruct (genre b).
Qed.

Lemma search_loop_bad_title query bs :
  Exists (fun b => has_str_title b = false) bs ->
  search_loop query bs = Raise AttributeError.
Proof.
  induction bs as [|b bs IH]; intros H; [by apply Exists_nil in H|].
  cbn [search_loop]. pose proof (book_matches_outcome query b) as Hb.
  destruct (book_matches query b) as [hit|e|]; [|by subst|done].
  apply Exists_cons in H as [H|H]; [congruence|].
  cbn [obind]. by rewrite IH.
Qed.

(** X5.  One record whose title is not a string breaks every search:
    whatever the query and wherever the record stands, [search_books]
    raises [AttributeError] and returns nothing; the state is as before. *)
Theorem search_books_bad_title st query :
  Exists (fun b => has_str_title b = false) (books (self st)) ->
  search_books query st = (Raise AttributeError, st).
Proof.
  intros H. unfold search_books, get_self, lift, mbind, M_bind.
  by rewrite search_loop_bad_title.
Qed.

Lemma search_books_bad_title_witness :
  search_books "dune"
    (store [dune; mkBook (PInt 1984) (PStr "George Orwell") (PStr "Novel") (PInt 1949)] ∅)
  = (Raise AttributeError,
     store [dune; mkBook (PInt 1984) (PStr "George Orwell") (PStr "Novel") (PInt 1949)] ∅).
Proof.
  apply (search_books_bad_title
           (store [dune; mkBook (PInt 1984) (PStr "George Orwell") (PStr "Novel")
                           (PInt 1949)] ∅) "dune").
  apply Exists_cons_tl, Exists_cons_hd. reflexivity.
Defined.

Lemma find_title_bad_title name pre : forall i b post,
  Forall (fun x => has_str_title x = true) pre ->
  Forall (fun x => title_is name x = false) pre ->
  has_str_title b = false ->
  find_title name i (pre ++ b :: post) = Raise AttributeError.
Proof.
  induction pre as [|x pre IH]; intros i b post Hs Hn Hb.
  - simpl. unfold has_str_title in Hb. by destruct (title b).
  - inversion Hs; inversion Hn; subst.
    rewrite <- app_comm_cons, find_title_skip by done. by apply IH.
Qed.



(** X7.  A title that is not a string, standing before any match, makes
    [remove_book] raise [AttributeError]: nothing is removed, nothing is
    saved, and a matching record further on stays where it is. *)
Theorem remove_book_bad_title st name pre b post :
  books (self st) = pre ++ b :: post ->
  Forall (fun x => has_str_title x = true) pre ->
  Forall (fun x => title_is name x = false) pre ->
  has_str_title b = false ->
  remove_book name st = (Raise AttributeError, st).
Proof.
  intros Hbooks Hs Hn Hb. rewrite remove_book_run, Hbooks.
  by rewrite find_title_bad_title.
Qed.

Lemma remove_book_bad_title_witness :
  remove_book "Dune" (store [foundation; mkBook PNone PNone PNone PNone; dune] ∅)
  = (Raise AttributeError,
     store [foundation; mkBook PNone PNone PNone PNone; dune] ∅).
Proof.
  apply (remove_book_bad_title
           (store [foundation; mkBook PNone PNone PNone PNone; dune] ∅)
           "Dune" [foundation] (mkBook PNone PNone PNone PNone) [dune]).
  - reflexivity.
  - repeat constructor.
  - repeat constructor.
  - reflexivity.
Defined.

(** ** How the operations compose *)

Lemma add_book_run st book :
  add_book book st = (Return tt, saved st (books (self st) ++ [book])).
Proof.
  unfold add_book, get_self, set_books, mbind, M_bind. cbn -[save_library].
  by rewrite save_library_json.
Qed.




Lemma Library_init_saved st bs ds :
  json_filename (self st) = "library_data.json"%string ->
  forallb is_record bs = true ->
  Library_init (files (saved st bs)) ds
  = (Return tt,
     {| self := mkLibrary bs "library_data.json" "library_data.csv";
        files := files (saved st bs); dialogs := ds |}).
Proof.
  intros Hname Hbs. rewrite Library_init_run. cbn [files saved].
  rewrite Hname, lookup_insert_eq. by rewrite books_of_json_books_json.
Qed.



(** * Further properties of the two formats *)

(** ** What the CSV format makes of a value *)









(** What the coercion makes of the example: the year in text becomes an
    integer, the missing author an empty string, the truth value its
    name. *)
Example reread_dune_loose :
  reread dune_loose = Return (mkBook (PStr "Dune") (PStr "") (PStr "True") (PInt 1965)).
Proof. reflexivity. Qed.

(** ** The errors of a load *)

Lemma int_of_str_outcome s :
  match int_of_str s with
  | Return _ => True
  | Raise e => e = ValueError
  | OutOfModel => False
  end.
Proof.
  unfold int_of_str, int_of_chars.
  destruct (skip_while is_int_space (list_ascii_of_string s)) as [|c l]; [done|].
  destruct (if ascii_eqb c "+" then _ else _) as [sign [|d l2]]; [done|].
  destruct (is_digit d); [|done].
  destruct (int_digits 0 false (d :: l2)) as [[n rest]|]; [|done].
  by destruct (skip_while is_int_space rest).
Qed.














(** ** Columns of a CSV file *)








(** ** What a file can bring *)























(** * The window *)

(** ** The form *)

Lemma year_of_entry_outcome text :
  match LibraryApp.year_of_entry text with
  | Return y => int_of_str text = Return y /\ (0 <= y <= 2100)%Z
  | Raise e => e = ValueError
  | OutOfModel => False
  end.
Proof.
  unfold LibraryApp.year_of_entry. pose proof (int_of_str_outcome text) as H.
  destruct (int_of_str text) as [y|e|]; [|done|done].
  cbn [obind]. destruct (Z.ltb_spec y 0); [done|].
  destruct (Z.ltb_spec 2100 y); [done|]. simpl. split; [done|lia].
Qed.

Lemma update_book_list_refreshed app :
  LibraryApp.update_book_list None app
  = LibraryApp.set_widgets (refreshed (LibraryApp.widgets app) (collection app)) app.
Proof. reflexivity. Qed.

Lemma add_button_run app :
  LibraryApp.add_book app =
  (Return tt,
   if filled (LibraryApp.widgets app) then
     match LibraryApp.year_of_entry (LibraryApp.year_entry (LibraryApp.widgets app)) with
     | Return y => added app y
     | _ => LibraryApp.showerror_box "Error" "Year must be a valid number!" app
     end
   else LibraryApp.showerror_box "Error" "All fields are required!" app).
Proof.
  unfold LibraryApp.add_book. fold (filled (LibraryApp.widgets app)).
  destruct (filled (LibraryApp.widgets app)); [|done]. cbn [negb].
  pose proof (year_of_entry_outcome (LibraryApp.year_entry (LibraryApp.widgets app))) as Hy.
  destruct (LibraryApp.year_of_entry _) as [y|e|]; [|by subst|done].
  unfold LibraryApp.call. by rewrite add_book_run.
Qed.

(** X14.  The form of the window lets a book in only when it is complete
    and its year reads as an integer from 0 to 2100.  [add_book] of the
    window never raises.  With an empty entry it shows the error that all
    fields are required; with a year that [int] refuses or that is out of
    range, the error that the year must be a valid number; in both cases
    the store, the files and the widgets stay as they were.  Otherwise the
    book of the four entries is appended and saved, the tree shows the
    whole collection, the form is emptied and the success is announced. *)
Theorem add_button_validates app :
  let w := LibraryApp.widgets app in
  exists app',
    LibraryApp.add_book app = (Return tt, app')
    /\ ((filled w = false
         /\ app' = LibraryApp.showerror_box "Error" "All fields are required!" app)
        \/ (filled w = true
            /\ (forall y, int_of_str (LibraryApp.year_entry w) = Return y ->
                          (y < 0 \/ 2100 < y)%Z)
            /\ app' = LibraryApp.showerror_box "Error" "Year must be a valid number!" app)
        \/ (exists y,
              filled w = true
              /\ int_of_str (LibraryApp.year_entry w) = Return y
              /\ (0 <= y <= 2100)%Z
              /\ app' = added app y)).
Proof.
  intros w. rewrite add_button_run. fold w. eexists. split; [reflexivity|].
  destruct (filled w); [|by left]. right.
  unfold LibraryApp.year_of_entry.
  destruct (int_of_str (LibraryApp.year_entry w)) as [y|e|] eqn:Hy; cbn [obind].
  - destruct (Z.ltb_spec y 0); [left; repeat split; intros ? [= <-]; lia|].
    destruct (Z.ltb_spec 2100 y); [left; repeat split; intros ? [= <-]; lia|].
    right. exists y. simpl. repeat split; lia || done.
  - left. by repeat split.
  - left. by repeat split.
Qed.

(** ** The other buttons *)

Lemma find_title_typed name bs : forall i,
  Forall (fun x => has_str_title x = true) bs ->
  (find_title name i bs = Return None
   /\ Forall (fun x => title_is name x = false) bs)
  \/ (exists pre b post,
        bs = pre ++ b :: post
        /\ Forall (fun x => title_is name x = false) pre
        /\ title_is name b = true
        /\ find_title name i bs = Return (Some (i + length pre))).
Proof.
  induction bs as [|x bs IH]; intros i Hs; [by left|].
  inversion Hs as [|? ? Hx Hbs]; subst.
  destruct (title_is name x) eqn:Hn.
  - right. exists [], x, bs. repeat split; [constructor|done|].
    by apply (find_title_found name [] i x bs).
  - rewrite find_title_skip by done.
    destruct (IH (S i) Hbs) as [[Hf Hall]|(pre & b & post & -> & Hpre & Hb & Hf)].
    + left. split; [done|]. by constructor.
    + right. exists (x :: pre), b, post. repeat split; [by constructor|done|].
      rewrite Hf. simpl. do 2 f_equal. lia.
Qed.

Lemma remove_button_run app :
  LibraryApp.remove_book app =
  if LibraryApp.truthy (LibraryApp.remove_entry (LibraryApp.widgets app)) then
    match find_title (LibraryApp.remove_entry (LibraryApp.widgets app)) 0
            (collection app) with
    | Return (Some i) => (Return tt, removed app (delete i (collection app)))
    | Return None => (Return tt, LibraryApp.showerror_box "Error" "Book not found!" app)
    | Raise e => (Raise e, app)
    | OutOfModel => (OutOfModel, app)
    end
  else
    (Return tt, LibraryApp.showerror_box "Error" "Please enter a title to remove!" app).
Proof.
  unfold LibraryApp.remove_book.
  destruct (LibraryApp.truthy _); [|done]. cbn [negb].
  unfold LibraryApp.call. rewrite remove_book_run. unfold collection.
  destruct app as [st w infos]. cbn [LibraryApp.library LibraryApp.widgets LibraryApp.infos].
  by destruct (find_title _ 0 (books (self st))) as [[i|]|e|].
Qed.

Lemma search_button_run app :
  LibraryApp.search_books app =
  if LibraryApp.truthy (LibraryApp.search_entry (LibraryApp.widgets app)) then
    match search_loop (lower (LibraryApp.search_entry (LibraryApp.widgets app)))
            (collection app) with
    | Return results =>
        (Return tt,
         LibraryApp.set_widgets
           (filtered (LibraryApp.widgets app) results (length (collection app))) app)
    | Raise e => (Raise e, app)
    | OutOfModel => (OutOfModel, app)
    end
  else (Return tt, app).
Proof.
  unfold LibraryApp.search_books.
  destruct (LibraryApp.truthy _); [|done].
  unfold LibraryApp.call, search_books, get_self, lift, mbind, M_bind, collection.
  destruct app as [st w infos]. cbn [LibraryApp.library LibraryApp.widgets LibraryApp.infos].
  by destruct (search_loop _ (books (self st))).
Qed.

Lemma truthy_empty s : LibraryApp.truthy s = false <-> s = EmptyString.
Proof. by destruct s. Qed.

(** X15.  [remove_book] of the window, on a collection whose titles are
    strings, never raises and tells the three cases apart.  With an empty
    entry it asks for a title; with a text that is no title of the
    collection up to case it says that the book was not found; in both
    cases nothing but the error dialog changes.  Otherwise the first book
    with that title, and only it, leaves the collection, the file is
    rewritten, the tree shows the collection that remains, the entry is
    emptied and the success is announced. *)
Theorem remove_button_reports app :
  let name := LibraryApp.remove_entry (LibraryApp.widgets app) in
  Forall (fun x => has_str_title x = true) (collection app) ->
  exists app',
    LibraryApp.remove_book app = (Return tt, app')
    /\ ((name = EmptyString
         /\ app' = LibraryApp.showerror_box "Error" "Please enter a title to remove!" app)
        \/ (name <> EmptyString
            /\ Forall (fun x => title_is name x = false) (collection app)
            /\ app' = LibraryApp.showerror_box "Error" "Book not found!" app)
        \/ (exists pre b post,
              name <> EmptyString
              /\ collection app = pre ++ b :: post
              /\ Forall (fun x => title_is name x = false) pre
              /\ title_is name b = true
              /\ app' = removed app (pre ++ post))).
Proof.
  intros name Hs. rewrite remove_button_run. fold name.
  destruct (LibraryApp.truthy name) eqn:Hn.
  - assert (name <> EmptyString) as Hne by (intros E; by rewrite E in Hn).
    destruct (find_title_typed name (collection app) 0 Hs)
      as [[Hf Hall]|(pre & b & post & Hbs & Hpre & Hb & Hf)]; rewrite Hf.
    + eexists. split; [reflexivity|]. right. by left.
    + eexists. split; [reflexivity|]. right. right. exists pre, b, post.
      repeat split; try done. rewrite Hbs. cbn [Nat.add]. by rewrite delete_middle.
  - eexists. split; [reflexivity|]. left. split; [by apply truthy_empty|done].
Qed.

Lemma remove_button_reports_witness :
  Forall (fun x => has_str_title x = true) (collection remove_dune)
  /\ exists app',
       LibraryApp.remove_book remove_dune = (Return tt, app')
       /\ (("DUNE"%string = EmptyString
            /\ app' = LibraryApp.showerror_box "Error" "Please enter a title to remove!"
                        remove_dune)
           \/ ("DUNE"%string <> EmptyString
               /\ Forall (fun x => title_is "DUNE" x = false) (collection remove_dune)
               /\ app' = LibraryApp.showerror_box "Error" "Book not found!" remove_dune)
           \/ (exists pre b post,
                 "DUNE"%string <> EmptyString
                 /\ collection remove_dune = pre ++ b :: post
                 /\ Forall (fun x => title_is "DUNE" x = false) pre
                 /\ title_is "DUNE" b = true
                 /\ app' = removed remove_dune (pre ++ post))).
Proof.
  split; [repeat constructor|].
  apply (remove_button_reports remove_dune). repeat constructor.
Defined.

(** X16.  The search of the window, on a collection whose title, author
    and genre are strings: with a query in the entry, the tree shows the
    books of which one of the three fields contains the query up to case,
    in the order of the collection, and the status line counts them
    against the whole collection; the store, the files and the entries are
    untouched.  With an empty entry nothing happens at all: the tree keeps
    what it showed, it does not go back to the whole collection. *)
Theorem search_button_filters app :
  let query := LibraryApp.search_entry (LibraryApp.widgets app) in
  Forall (fun b => has_str_fields b = true) (collection app) ->
  LibraryApp.search_books app
  = (Return tt,
     if LibraryApp.truthy query then
       LibraryApp.set_widgets
         (filtered (LibraryApp.widgets app)
            (List.filter (matches_query query) (collection app))
            (length (collection app)))
         app
     else app).
Proof.
  intros query Hs. rewrite search_button_run. fold query.
  destruct (LibraryApp.truthy query); [|done]. by rewrite search_loop_filter.
Qed.

Lemma search_button_filters_witness :
  Forall (fun b => has_str_fields b = true) (collection search_austen)
  /\ LibraryApp.search_books search_austen
     = (Return tt,
        LibraryApp.set_widgets
          (filtered (LibraryApp.widgets search_austen) [emma] 3) search_austen).
Proof.
  split; [repeat constructor|].
  apply (search_button_filters search_austen). repeat constructor.
Defined.

(** ** The tree and the collection *)

Lemma search_loop_sublist query bs : forall results,
  search_loop query bs = Return results -> sublist results bs.
Proof.
  induction bs as [|b bs IH]; intros results H.
  - injection H as <-. constructor.
  - cbn [search_loop] in H.
    destruct (book_matches query b) as [hit| |]; try discriminate. cbn [obind] in H.
    destruct (search_loop query bs) as [rest| |]; try discriminate. cbn [obind] in H.
    specialize (IH rest eq_refl).
    destruct hit; injection H as <-; by constructor.
Qed.

Lemma export_button_frame file_path app r app' :
  LibraryApp.export_library file_path app = (r, app') ->
  self (LibraryApp.library app') = self (LibraryApp.library app)
  /\ LibraryApp.widgets app' = LibraryApp.widgets app.
Proof.
  unfold LibraryApp.export_library.
  destruct (LibraryApp.truthy file_path); [|by intros [= <- <-]].
  unfold LibraryApp.call.
  destruct (export_library file_path _ (LibraryApp.library app)) as [rr st'] eqn:He.
  apply export_library_touches in He as ((Hs & _) & _).
  destruct rr as [[]| |]; by intros [= <- <-].
Qed.

Lemma import_library_self filename st r st' :
  import_library filename st = (r, st') -> r <> Return true -> self st' = self st.
Proof.
  rewrite import_library_run. unfold import_with.
  destruct (endswith filename ".json");
    [|destruct (endswith filename ".csv"); [|by intros [= <- <-]]].
  all: destruct (files st !! filename) as [text|]; [|by intros [= <- <-]].
  - destruct (books_of_json text); intros [= <- <-]; done.
  - destruct (books_of_csv text); intros [= <- <-]; done.
Qed.

Lemma import_button_view file_path app r app' :
  LibraryApp.import_library file_path app = (r, app') ->
  (collection app' = collection app
   /\ LibraryApp.tree (LibraryApp.widgets app') = LibraryApp.tree (LibraryApp.widgets app))
  \/ in_sync app'.
Proof.
  unfold LibraryApp.import_library.
  destruct (LibraryApp.truthy file_path); [|intros [= <- <-]; by left].
  unfold LibraryApp.call.
  destruct (import_library file_path (LibraryApp.library app)) as [rr st'] eqn:Hi.
  destruct rr as [[]| |]; intros [= <- <-]; [by right|..]; left;
    apply import_library_self in Hi; try done; unfold collection; simpl;
    by rewrite Hi.
Qed.

(** What an event does to the tree and the collection: it leaves both, or
    it leaves the tree on the whole collection, or, for a search, it leaves
    the collection and shows a part of it. *)
Lemma handle_view ev app r app' :
  LibraryApp.handle ev app = (r, app') ->
  (collection app' = collection app
   /\ LibraryApp.tree (LibraryApp.widgets app') = LibraryApp.tree (LibraryApp.widgets app))
  \/ in_sync app'
  \/ (ev = LibraryApp.SearchButton
      /\ collection app' = collection app
      /\ exists shown,
           sublist shown (collection app)
           /\ LibraryApp.tree (LibraryApp.widgets app') = map row shown).
Proof.
  destruct ev as [s t a g y rm| | | | |file_path|file_path]; cbn [LibraryApp.handle].
  - intros [= <- <-]. by left.
  - rewrite search_button_run.
    destruct (LibraryApp.truthy _); [|intros [= <- <-]; by left].
    destruct (search_loop _ (collection app)) as [results|e|] eqn:Hs;
      intros [= <- <-]; [|by left|by left].
    right. right. repeat split. exists results. split; [|done].
    by apply search_loop_sublist in Hs.
  - intros [= <- <-]. right. by left.
  - rewrite add_button_run. intros [= <- <-].
    destruct (filled _); [|by left].
    destruct (LibraryApp.year_of_entry _); [right; by left|by left|by left].
  - rewrite remove_button_run.
    destruct (LibraryApp.truthy _); [|intros [= <- <-]; by left].
    destruct (find_title _ 0 (collection app)) as [[i|]|e|];
      intros [= <- <-]; [right; by left|by left..].
  - intros H. apply export_button_frame in H as [Hs Hw]. left.
    unfold collection. by rewrite Hs, Hw.
  - intros H. apply import_button_view in H as [H|H]; [by left|right; by left].
Qed.

(** X17.  The tree never shows anything but books of the collection.
    Whatever the user does (typing, one of the six buttons, any answer of
    a file dialog) and whether the handler returns or raises: a tree that
    showed books of the collection in their order still does; a handler
    that changed the collection leaves the tree on the whole new
    collection; and apart from the search, a tree that showed the whole
    collection still shows the whole collection. *)
Theorem view_follows_collection ev app r app' :
  LibraryApp.handle ev app = (r, app') ->
  r <> OutOfModel ->
  shows_part app ->
  shows_part app'
  /\ (collection app' <> collection app -> in_sync app')
  /\ (ev <> LibraryApp.SearchButton -> in_sync app -> in_sync app').
Proof.
  intros H _ (shown & Hsub & Htree).
  apply handle_view in H as [[Hc Ht]|[Hsync|(-> & Hc & shown' & Hsub' & Ht)]].
  - repeat split.
    + exists shown. by rewrite Hc, Ht.
    + done.
    + unfold in_sync. by rewrite Hc, Ht.
  - repeat split; try done. exists (collection app'). split; [done|exact Hsync].
  - repeat split; try done. exists shown'. by rewrite Hc.
Qed.

Lemma view_follows_collection_witness :
  shows_part (LibraryApp.set_widgets
                (filtered (LibraryApp.widgets search_austen) [emma] 3) search_austen)
  /\ (collection (LibraryApp.set_widgets
                    (filtered (LibraryApp.widgets search_austen) [emma] 3) search_austen)
      <> collection search_austen ->
      in_sync (LibraryApp.set_widgets
                 (filtered (LibraryApp.widgets search_austen) [emma] 3) search_austen))
  /\ (LibraryApp.SearchButton <> LibraryApp.SearchButton ->
      in_sync search_austen ->
      in_sync (LibraryApp.set_widgets
                 (filtered (LibraryApp.widgets search_austen) [emma] 3) search_austen)).
Proof.
  apply (view_follows_collection LibraryApp.SearchButton search_austen (Return tt)).
  - reflexivity.
  - discriminate.
  - exists [foundation; dune; emma]. split; reflexivity.
Defined.



(** ** Starting and running *)

(** X19.  A data file that cannot be read does not keep the window from
    opening.  [LibraryApp(root)] raises nothing, whatever the files hold;
    the tree shows the whole collection of the new store, no file is
    touched, and either no dialog was shown, or the collection is empty
    and one error dialog says that the library failed to load. *)
Theorem window_opens fs ds r app :
  LibraryApp.init fs ds = (r, app) ->
  r <> OutOfModel ->
  r = Return tt
  /\ in_sync app
  /\ files (LibraryApp.library app) = fs
  /\ LibraryApp.infos app = []
  /\ (dialogs (LibraryApp.library app) = ds
      \/ (collection app = []
          /\ exists e,
               dialogs (LibraryApp.library app)
               = ds ++ [showerror "Error" "Failed to load library: " (Some e)])).
Proof.
  unfold LibraryApp.init. rewrite Library_init_run.
  destruct (fs !! "library_data.json"%string) as [text|].
  - unfold loaded. destruct (books_of_json text) as [bs|e|];
      intros [= <- <-] Hr; try done; repeat split; [by left|right; split; eauto].
  - destruct (fs !! "library_data.csv"%string) as [text|].
    + unfold loaded. destruct (books_of_csv text) as [bs|e|];
        intros [= <- <-] Hr; try done; repeat split; [by left|right; split; eauto].
    + intros [= <- <-] _. repeat split. by left.
Qed.

Lemma window_opens_witness :
  Return tt = Return tt
  /\ in_sync broken_window
  /\ files (LibraryApp.library broken_window) = files broken_store
  /\ LibraryApp.infos broken_window = []
  /\ (dialogs (LibraryApp.library broken_window) = []
      \/ (collection broken_window = []
          /\ exists e,
               dialogs (LibraryApp.library broken_window)
               = [] ++ [showerror "Error" "Failed to load library: " (Some e)])).
Proof.
  apply (window_opens (files broken_store) []).
  - unfold LibraryApp.init. rewrite Library_init_run. reflexivity.
  - discriminate.
Defined.

Lemma from_form_is_record bs :
  Forall (fun b => from_form b = true) bs -> forallb is_record bs = true.
Proof.
  induction 1 as [|b bs Hb _ IH]; [done|]. simpl. rewrite IH, andb_true_r.
  unfold from_form in Hb. unfold is_record.
  by destruct (title b), (author b), (genre b), (year b).
Qed.

Lemma from_form_str_fields bs :
  Forall (fun b => from_form b = true) bs ->
  Forall (fun b => has_str_fields b = true) bs.
Proof.
  intros H. eapply Forall_impl; [exact H|]. clear H. intros b Hb. unfold from_form in Hb. unfold has_str_fields.
  by destruct (title b), (author b), (genre b).
Qed.

Lemma from_form_str_title bs :
  Forall (fun b => from_form b = true) bs ->
  Forall (fun b => has_str_title b = true) bs.
Proof.
  intros H. eapply Forall_impl; [exact H|]. clear H. intros b Hb. unfold from_form in Hb. unfold has_str_title.
  by destruct (title b).
Qed.

Lemma from_form_book w y :
  filled w = true -> (0 <= y <= 2100)%Z -> from_form (form_book w y) = true.
Proof.
  unfold filled, from_form, form_book. simpl.
  intros [[[-> ->]%andb_prop ->]%andb_prop _]%andb_prop Hy. simpl.
  apply andb_true_intro. split; [apply Z.leb_le|apply Z.leb_le]; lia.
Qed.

(** The constructor reads the two canonical files and no other. *)
Lemma restores_same_files fs fs' lib :
  fs' !! "library_data.json"%string = fs !! "library_data.json"%string ->
  fs' !! "library_data.csv"%string = fs !! "library_data.csv"%string ->
  restores fs lib -> restores fs' lib.
Proof.
  intros Hj Hc H ds. specialize (H ds). rewrite Library_init_run in *.
  rewrite Hj, Hc.
  assert (forall wrap parsed,
            loaded wrap parsed fs ds
            = (Return tt, {| self := lib; files := fs; dialogs := ds |}) ->
            loaded wrap parsed fs' ds
            = (Return tt, {| self := lib; files := fs'; dialogs := ds |})) as Hl.
  { intros wrap [bs|e|]; unfold loaded; [by intros [= <-]| |done].
    intros [= _ Hd]. apply (f_equal length) in Hd. rewrite length_app in Hd.
    simpl in Hd. lia. }
  destruct (fs !! "library_data.json"%string); [by apply Hl|].
  destruct (fs !! "library_data.csv"%string); [by apply Hl|].
  by injection H as <-.
Qed.

Lemma restores_saved st bs :
  json_filename (self st) = "library_data.json"%string ->
  csv_filename (self st) = "library_data.csv"%string ->
  forallb is_record bs = true ->
  restores (files (saved st bs)) (self (saved st bs)).
Proof.
  intros Hj Hc Hbs ds. rewrite Library_init_saved by done.
  unfold saved. cbn [self]. by rewrite Hj, Hc.
Qed.

Lemma restores_notified st d lib :
  restores (files st) lib -> restores (files (notified st d)) lib.
Proof. done. Qed.

(** An export cannot spoil the next start: under a canonical name it
    writes the collection in the format the constructor expects there. *)
Lemma restores_export st file_path :
  json_filename (self st) = "library_data.json"%string ->
  csv_filename (self st) = "library_data.csv"%string ->
  forallb is_record (books (self st)) = true ->
  restores (files st) (self st) ->
  restores
    (<[file_path := if endswith file_path ".json" then books_json (books (self st))
                    else books_csv (books (self st))]> (files st))
    (self st).
Proof.
  destruct st as [[bs jf cf] fs ds0]. cbn [self files books json_filename csv_filename].
  intros -> -> Hbs H.
  destruct (decide (file_path = "library_data.json"%string)) as [->|Hnj].
  - intros ds. rewrite Library_init_run, lookup_insert_eq.
    change (endswith "library_data.json" ".json") with true. cbn iota.
    by rewrite books_of_json_books_json.
  - destruct (decide (file_path = "library_data.csv"%string)) as [->|Hnc].
    + change (endswith "library_data.csv" ".json") with false. cbn iota.
      intros ds. specialize (H ds). rewrite Library_init_run in *.
      rewrite lookup_insert_ne by done.
      destruct (fs !! "library_data.json"%string) as [text|].
      * unfold loaded in *. destruct (books_of_json text) as [bs'|e|]; [|..].
        -- by injection H as <-.
        -- injection H as _ Hd. apply (f_equal length) in Hd.
           rewrite length_app in Hd. simpl in Hd. lia.
        -- done.
      * rewrite lookup_insert_eq. by rewrite books_of_csv_books_csv.
    + eapply restores_same_files; [| |exact H]; by rewrite lookup_insert_ne.
Qed.

Lemma durable_step ev app :
  is_import ev = false -> durable app ->
  exists app', LibraryApp.handle ev app = (Return tt, app') /\ durable app'.
Proof.
  intros Hev (Hj & Hc & Hform & Hres).
  destruct ev as [s t a g y rm| | | | |file_path|file_path]; [..|done];
    cbn [LibraryApp.handle].
  - eexists. split; [reflexivity|]. by repeat split.
  - rewrite search_button_run.
    rewrite (search_loop_filter _ _ (from_form_str_fields _ Hform)).
    destruct (LibraryApp.truthy _); eexists; (split; [reflexivity|]); by repeat split.
  - eexists. split; [reflexivity|]. by repeat split.
  - rewrite add_button_run. eexists. split; [reflexivity|].
    destruct (filled (LibraryApp.widgets app)) eqn:Hf; [|by repeat split].
    pose proof (year_of_entry_outcome
                  (LibraryApp.year_entry (LibraryApp.widgets app))) as Hy.
    destruct (LibraryApp.year_of_entry _) as [y|e|]; [|by repeat split..].
    destruct Hy as [_ Hy].
    assert (Forall (fun b => from_form b = true)
              (collection app ++ [form_book (LibraryApp.widgets app) y])) as Hall.
    { apply Forall_app. split; [done|]. constructor; [|constructor].
      by apply from_form_book. }
    repeat split; try done.
    apply restores_saved; try done. by apply from_form_is_record.
  - rewrite remove_button_run.
    destruct (LibraryApp.truthy _);
      [|eexists; split; [reflexivity|by repeat split]].
    destruct (find_title_typed (LibraryApp.remove_entry (LibraryApp.widgets app))
                (collection app) 0 (from_form_str_title _ Hform))
      as [[Hf _]|(pre & b & post & Hbs & _ & _ & Hf)]; rewrite Hf;
      (eexists; split; [reflexivity|]); [by repeat split|].
    assert (Forall (fun b => from_form b = true)
              (delete (0 + length pre) (collection app))) as Hall
      by by apply Forall_delete.
    repeat split; try done.
    apply restores_saved; try done. by apply from_form_is_record.
  - unfold LibraryApp.export_library.
    destruct (LibraryApp.truthy file_path);
      [|eexists; split; [reflexivity|by repeat split]].
    pose proof (restores_export (LibraryApp.library app) file_path Hj Hc
                  (from_form_is_record _ Hform) Hres) as Hex.
    unfold LibraryApp.call.
    destruct (endswith file_path ".json").
    + rewrite export_library_json_run. eexists. split; [reflexivity|]. by repeat split.
    + rewrite export_library_csv_run by by apply from_form_is_record.
      eexists. split; [reflexivity|]. by repeat split.
Qed.

Lemma mainloop_durable evs : forall app,
  Forall (fun ev => is_import ev = false) evs -> durable app ->
  exists app', LibraryApp.mainloop evs app = Return ([], app') /\ durable app'.
Proof.
  induction evs as [|ev evs IH]; intros app Hevs Hd; [by exists app|].
  inversion Hevs as [|? ? Hev Hrest]; subst.
  destruct (durable_step ev app Hev Hd) as (app1 & Hrun & Hd1).
  cbn [LibraryApp.mainloop]. rewrite Hrun. by apply IH.
Qed.

(** X20.  A session at the window that imports nothing cannot lose or
    spoil the collection.  From a window over a store with the file names
    of the constructor, whose books are as the form makes them (texts that
    are not empty, a year from 0 to 2100) and whose files give that
    collection to a new start: whatever is typed and whichever of the
    buttons but the import are pressed, in any order and with any answer of
    the export dialog, no handler raises, the books are still as the form
    makes them, and a new start over the files left behind finds the very
    collection of the window. *)
Theorem session_is_durable evs app :
  Forall (fun ev => is_import ev = false) evs ->
  durable app ->
  exists app',
    LibraryApp.mainloop evs app = Return ([], app')
    /\ durable app'.
Proof. exact (mainloop_durable evs app). Qed.

Lemma session_is_durable_witness :
  exists app',
    LibraryApp.mainloop evening (window (store [] ∅)) = Return ([], app')
    /\ durable app'.
Proof.
  apply (session_is_durable evening (window (store [] ∅))).
  - repeat constructor.
  - repeat split. constructor.
Defined.

Lemma no_data_files_durable fs ds :
  fs !! "library_data.json"%string = None ->
  fs !! "library_data.csv"%string = None ->
  exists app, LibraryApp.init fs ds = (Return tt, app) /\ durable app.
Proof.
  intros Hj Hc. unfold LibraryApp.init. rewrite Library_init_run, Hj, Hc.
  eexists. split; [reflexivity|]. repeat split; [constructor|].
  intros ds'. cbn. by rewrite Library_init_run, Hj, Hc.
Qed.

(** X21.  The program started in a directory without data files: whatever
    the user types and presses short of an import, [main] reports no
    exception, and when the window is closed the collection holds only
    books as the form makes them and is the one the next start will
    find. *)
Theorem main_without_files fs ds evs :
  fs !! "library_data.json"%string = None ->
  fs !! "library_data.csv"%string = None ->
  Forall (fun ev => is_import ev = false) evs ->
  exists app,
    LibraryApp.main fs ds evs = Return ([], app)
    /\ Forall (fun b => from_form b = true) (collection app)
    /\ restores (files (LibraryApp.library app)) (self (LibraryApp.library app)).
Proof.
  intros Hj Hc Hevs. unfold LibraryApp.main.
  destruct (no_data_files_durable fs ds Hj Hc) as (app0 & -> & Hd).
  destruct (mainloop_durable evs app0 Hevs Hd) as (app & Hrun & _ & _ & Hf & Hr).
  by exists app.
Qed.

Lemma main_without_files_witness :
  exists app,
    LibraryApp.main ∅ [] evening = Return ([], app)
    /\ Forall (fun b => from_form b = true) (collection app)
    /\ restores (files (LibraryApp.library app)) (self (LibraryApp.library app)).
Proof.
  apply (main_without_files ∅ [] evening).
  - reflexivity.
  - reflexivity.
  - repeat constructor.
Defined.
